(** * decky-terminal: the [Terminal] session of py_modules/decky_terminal/terminal.py

    A shallow embedding of the [Terminal] class: the object's attributes are a
    record, the operating system, the event loop and the websocket transport
    are a second record (the world), and every method is a function in a
    state-and-exception monad.  A raised Python exception keeps the mutations
    made before it, so the monad returns the state in both outcomes. *)

From Stdlib Require Import ZArith Lia.
From Stdlib Require Import Strings.Byte.
From stdpp Require Import base decidable option list gmap strings pretty.

Local Open Scope Z_scope.

(* set_solver clears hypotheses by generated names. *)
#[local] Set Warnings "-clear-no-such-hyp".

(** ** Bytes *)

#[global] Instance byte_eq_dec : EqDecision byte := Byte.byte_eq_dec.

(** A Python [bytes] value. *)
Abbreviation bytes := (list byte).

(** ** Exceptions and the monad *)

(** The exception classes the methods can meet; all of them derive from
    [Exception], so a bare [except Exception] catches each one. *)
Inductive exn :=
| AttributeError   (* reading an attribute that was never assigned *)
| KeyError         (* os.environ lookup of a missing key *)
| OSError          (* os.close / os.read / os.write / ioctl on a bad descriptor *)
| StructError      (* struct.pack of a value outside the format's range *)
| TypeError        (* await applied to a value that is not awaitable *)
| ValueError       (* list.index of an absent element *)
| ConnectionClosed (* websockets: send/recv on a closed connection *).

#[global] Instance exn_eq_dec : EqDecision exn.
Proof. solve_decision. Defined.

Inductive res (A : Type) :=
| Ok (a : A)
| Raise (e : exn).
Arguments Ok {A} a.
Arguments Raise {A} e.

Section Monad.
Context {S : Type}.

Definition M (A : Type) : Type := S → res A * S.

Definition ret {A} (a : A) : M A := λ s, (Ok a, s).
Definition raise {A} (e : exn) : M A := λ s, (Raise e, s).
Definition bind {A B} (m : M A) (k : A → M B) : M B :=
  λ s, match m s with
       | (Ok a, s') => k a s'
       | (Raise e, s') => (Raise e, s')
       end.
Definition get : M S := λ s, (Ok s, s).
Definition modify (f : S → S) : M unit := λ s, (Ok tt, f s).

(** [try: body except <class>: handler]; [catches] says which exceptions
    belong to the class named in the [except] clause. *)
Definition try_except {A} (body : M A) (catches : exn → bool)
    (handler : exn → M A) : M A :=
  λ s, match body s with
       | (Ok a, s') => (Ok a, s')
       | (Raise e, s') => if catches e then handler e s' else (Raise e, s')
       end.

(** [for x in xs: body x] *)
Fixpoint for_each {A} (xs : list A) (body : A → M unit) : M unit :=
  match xs with
  | [] => ret tt
  | x :: xs' => bind (body x) (λ _, for_each xs' body)
  end.
End Monad.
Arguments M : clear implicits.

Notation "'do' x <- m ; k" := (bind m (λ x, k))
  (at level 10, x name, m at level 100, k at level 200,
   format "'[v' 'do'  x  <-  m ; '/' k ']'").
Notation "'do_' m ; k" := (bind m (λ _, k))
  (at level 10, m at level 100, k at level 200,
   format "'[v' 'do_'  m ; '/' k ']'").

(** A library call that only computes a value or raises. *)
Definition lift_res {S A} (r : res A) : M S A := λ st, (r, st).

(** [except Exception] *)
Definition any_Exception (e : exn) : bool := true.
(** [except ValueError] *)
Definition only_ValueError (e : exn) : bool := bool_decide (e = ValueError).

(** ** The scrollback deque *)

(** [collections.deque(maxlen=n).append(x)]: the element is added on the right
    and, when the deque then holds more than [maxlen] elements, one element is
    dropped on the left. *)
Definition deque_append (maxlen : nat) (d : bytes) (x : byte) : bytes :=
  let d' := d ++ [x] in
  if decide (maxlen < length d')%nat then drop 1 d' else d'.

(** The capacity fixed in [__init__]. *)
Definition BUFFER_MAXLEN : nat := 4096.

(** ** Data model *)

Inductive signal := SIGKILL | SIGWINCH.

#[global] Instance signal_eq_dec : EqDecision signal.
Proof. solve_decision. Defined.

(** [asyncio.subprocess.Process]: the pid and the exit status the event loop
    has recorded ([returncode] is [None] until the loop's child watcher has
    seen the child exit). *)
Record Process := mkProcess {
  pid : Z;
  returncode : option Z;
}.

#[global] Instance Process_eq_dec : EqDecision Process.
Proof. solve_decision. Defined.

(** A websocket message: a text frame (a [str], kept as its UTF-8 encoding)
    or a binary frame. *)
Inductive message :=
| Text (s : string)
| Binary (b : bytes).

(** What the session sees of a [WebSocketServerProtocol]: the [closed]
    property and the frames the peer still sends before it disconnects. *)
Record Stream := mkStream {
  closed : bool;
  incoming : list message;
}.

(** Subscribers are compared by identity ([list.index] uses [==], which the
    protocol class does not override): a subscriber is a reference into the
    world's table of streams. *)
Abbreviation ws_ref := nat.

(** Coroutines handed to [asyncio.ensure_future]. *)
Inductive task :=
| ReadOutputLoop
| ProcessSubscriber (ws : ws_ref).

(** What the session does to the outside, in the order it does it. *)
Inductive event :=
| EvOpenPty (master slave : Z)
| EvIoctlWinsz (fd : Z) (arg : bytes)          (* fcntl.ioctl(fd, TIOCSWINSZ, arg) *)
| EvSpawn (cmd : string) (env : gmap string string) (p : Z)
| EvSignal (p : Z) (sig : signal)
| EvWrite (fd : Z) (data : bytes)
| EvFsync (fd : Z)
| EvRead (fd : Z) (data : bytes)
| EvClose (fd : Z)
| EvSend (ws : ws_ref) (data : bytes)          (* one binary message *)
| EvRecv (ws : ws_ref) (m : message)
| EvDroppedClose (ws : ws_ref)                 (* ws.close() called, never awaited *)
| EvEnsureFuture (t : task)
| EvPrint (e : exn).

(** The attributes of a [Terminal] object.  [master_fd] and [slave_fd] are
    only annotated in the class body, so they do not exist ([None] here)
    until [_start_process] assigns them. *)
Record Terminal := mkTerminal {
  cmdline : string;
  process : option Process;
  master_fd : option Z;
  slave_fd : option Z;
  subscribers : list ws_ref;
  buffer : bytes;
  cols : Z;
  rows : Z;
}.

(** The operating system, the websocket transport and the trace. *)
Record World := mkWorld {
  open_fds : gset Z;                 (* descriptors currently open *)
  winsize : gmap Z (Z * Z);          (* (rows, cols) of the PTY behind a master fd *)
  ttys : gmap Z string;              (* os.ttyname of a slave fd *)
  pty_out : bytes;                   (* child output not yet read from the master *)
  streams : gmap ws_ref Stream;
  environ : gmap string string;      (* os.environ *)
  next_fd : Z;
  next_pid : Z;
  trace : list event;
}.

Record State := mkState {
  self : Terminal;
  world : World;
}.

Abbreviation T := (M State).

(** *** Field updates *)

Definition set_process (p : option Process) (t : Terminal) : Terminal :=
  mkTerminal (cmdline t) p (master_fd t) (slave_fd t) (subscribers t)
             (buffer t) (cols t) (rows t).
Definition set_fds (m s : Z) (t : Terminal) : Terminal :=
  mkTerminal (cmdline t) (process t) (Some m) (Some s) (subscribers t)
             (buffer t) (cols t) (rows t).
Definition set_subscribers (l : list ws_ref) (t : Terminal) : Terminal :=
  mkTerminal (cmdline t) (process t) (master_fd t) (slave_fd t) l
             (buffer t) (cols t) (rows t).
Definition set_buffer (b : bytes) (t : Terminal) : Terminal :=
  mkTerminal (cmdline t) (process t) (master_fd t) (slave_fd t) (subscribers t)
             b (cols t) (rows t).
Definition set_rows (r : Z) (t : Terminal) : Terminal :=
  mkTerminal (cmdline t) (process t) (master_fd t) (slave_fd t) (subscribers t)
             (buffer t) (cols t) r.
Definition set_cols (c : Z) (t : Terminal) : Terminal :=
  mkTerminal (cmdline t) (process t) (master_fd t) (slave_fd t) (subscribers t)
             (buffer t) c (rows t).

Definition set_open_fds (o : gset Z) (w : World) : World :=
  mkWorld o (winsize w) (ttys w) (pty_out w) (streams w) (environ w)
          (next_fd w) (next_pid w) (trace w).
Definition set_winsize (z : gmap Z (Z * Z)) (w : World) : World :=
  mkWorld (open_fds w) z (ttys w) (pty_out w) (streams w) (environ w)
          (next_fd w) (next_pid w) (trace w).
Definition set_pty_out (b : bytes) (w : World) : World :=
  mkWorld (open_fds w) (winsize w) (ttys w) b (streams w) (environ w)
          (next_fd w) (next_pid w) (trace w).
Definition set_streams (m : gmap ws_ref Stream) (w : World) : World :=
  mkWorld (open_fds w) (winsize w) (ttys w) (pty_out w) m (environ w)
          (next_fd w) (next_pid w) (trace w).
Definition set_trace (tr : list event) (w : World) : World :=
  mkWorld (open_fds w) (winsize w) (ttys w) (pty_out w) (streams w) (environ w)
          (next_fd w) (next_pid w) tr.

Definition on_self (f : Terminal → Terminal) (st : State) : State :=
  mkState (f (self st)) (world st).
Definition on_world (f : World → World) (st : State) : State :=
  mkState (self st) (f (world st)).

(** Append one event to the trace. *)
Definition emit (e : event) (st : State) : State :=
  on_world (λ w, set_trace (trace w ++ [e]) w) st.
Definition log (e : event) : T unit := modify (emit e).

(** ** Library primitives *)

(** *** struct.pack('HHHH', ...) *)

(** One unsigned 16-bit field in native (little-endian) order; values outside
    [0, 65535] raise [struct.error]. *)
Definition byte_of_Z (z : Z) : byte :=
  default x00 (Byte.of_N (Z.to_N (z mod 256))).
Definition Z_of_byte (b : byte) : Z := Z.of_N (Byte.to_N b).

Definition pack_H (v : Z) : res bytes :=
  if decide (0 ≤ v ≤ 65535)
  then Ok [byte_of_Z (Z.land v 255); byte_of_Z (Z.shiftr v 8)]
  else Raise StructError.

Definition struct_pack_HHHH (a b c d : Z) : res bytes :=
  match pack_H a, pack_H b, pack_H c, pack_H d with
  | Ok x, Ok y, Ok z, Ok u => Ok (x ++ y ++ z ++ u)
  | _, _, _, _ => Raise StructError
  end.

(** The kernel's reading of a [struct winsize]: the first two 16-bit fields
    are [ws_row] and [ws_col]. *)
Definition unpack_winsize (arg : bytes) : option (Z * Z) :=
  match arg with
  | [r0; r1; c0; c1; _; _; _; _] =>
      Some (Z_of_byte r0 + 256 * Z_of_byte r1, Z_of_byte c0 + 256 * Z_of_byte c1)
  | _ => None
  end.

(** *** Attribute reads *)

(** [self.master_fd] / [self.slave_fd]: [AttributeError] before the first
    [_start_process]. *)
Definition get_master_fd : T Z :=
  λ st, match master_fd (self st) with
        | Some fd => (Ok fd, st)
        | None => (Raise AttributeError, st)
        end.
Definition get_slave_fd : T Z :=
  λ st, match slave_fd (self st) with
        | Some fd => (Ok fd, st)
        | None => (Raise AttributeError, st)
        end.

(** [self.process.<method>]: [self.process] is [None] before the first start,
    and [None] has no attributes. *)
Definition get_process : T Process :=
  λ st, match process (self st) with
        | Some p => (Ok p, st)
        | None => (Raise AttributeError, st)
        end.

(** *** os, pty, fcntl *)

Definition fd_open (fd : Z) (st : State) : bool :=
  bool_decide (fd ∈ open_fds (world st)).

Definition os_close (fd : Z) : T unit :=
  λ st, if fd_open fd st
        then (Ok tt, emit (EvClose fd)
                       (on_world (λ w, set_open_fds (open_fds w ∖ {[fd]}) w) st))
        else (Raise OSError, st).

Definition os_write (fd : Z) (data : bytes) : T unit :=
  λ st, if fd_open fd st then (Ok tt, emit (EvWrite fd data) st)
        else (Raise OSError, st).

(** The ends of a PTY: [pty.openpty] gives the master a window size and the
    slave a tty name. *)
Definition is_pty (fd : Z) (st : State) : bool :=
  match winsize (world st) !! fd, ttys (world st) !! fd with
  | None, None => false
  | _, _ => true
  end.

(** [os.fsync(fd)]: a terminal cannot be synced, so on an end of a PTY the
    call fails with EINVAL; on a descriptor that is not open, with EBADF.
    Both are [OSError]. *)
Definition os_fsync (fd : Z) : T unit :=
  λ st, if fd_open fd st
        then if is_pty fd st then (Raise OSError, st)
             else (Ok tt, emit (EvFsync fd) st)
        else (Raise OSError, st).

(** [os.read(fd, n)]: at most [n] of the pending bytes; nothing pending reads
    as the empty bytes. *)
Definition os_read (fd : Z) (n : nat) : T bytes :=
  λ st, if fd_open fd st
        then let data := take n (pty_out (world st)) in
             (Ok data, emit (EvRead fd data)
                         (on_world (λ w, set_pty_out (drop n (pty_out w)) w) st))
        else (Raise OSError, st).

(** [fcntl.ioctl(fd, termios.TIOCSWINSZ, arg)] *)
Definition ioctl_TIOCSWINSZ (fd : Z) (arg : bytes) : T unit :=
  λ st, if fd_open fd st
        then match unpack_winsize arg with
             | Some rc =>
                 (Ok tt, emit (EvIoctlWinsz fd arg)
                           (on_world (λ w, set_winsize (<[fd := rc]> (winsize w)) w) st))
             | None => (Raise OSError, st)
             end
        else (Raise OSError, st).

(** [pty.openpty()]: two fresh descriptors, the slave with a tty name. *)
Definition pty_openpty : T (Z * Z) :=
  λ st, let w := world st in
        let m := next_fd w in
        let s := next_fd w + 1 in
        let w' := mkWorld (open_fds w ∪ {[m; s]}) (<[m := (0, 0)]> (winsize w))
                          (<[s := "/dev/pts/" +:+ pretty (Z.of_nat (size (ttys w)))]> (ttys w))
                          (pty_out w) (streams w) (environ w)
                          (next_fd w + 2) (next_pid w) (trace w ++ [EvOpenPty m s]) in
        (Ok (m, s), mkState (self st) w').

Definition os_ttyname (fd : Z) : T string :=
  λ st, match ttys (world st) !! fd with
        | Some name => (Ok name, st)
        | None => (Raise OSError, st)
        end.

(** *** asyncio *)

(** [asyncio.create_subprocess_shell(cmd, ..., env=env)]: a running child,
    no exit status recorded yet. *)
Definition create_subprocess_shell (cmd : string) (env : gmap string string)
    : T Process :=
  λ st, let w := world st in
        let p := mkProcess (next_pid w) None in
        let w' := mkWorld (open_fds w) (winsize w) (ttys w) (pty_out w)
                          (streams w) (environ w) (next_fd w) (next_pid w + 1)
                          (trace w ++ [EvSpawn cmd env (next_pid w)]) in
        (Ok p, mkState (self st) w').

(** [Process.send_signal(sig)] and [Process.kill()] are plain methods: they
    deliver the signal and return [None].  The exit status is recorded later,
    by the event loop, not by these calls. *)
Definition Process_send_signal (p : Process) (sig : signal) : T unit :=
  log (EvSignal (pid p) sig).
Definition Process_kill (p : Process) : T unit :=
  Process_send_signal p SIGKILL.

(** [await v] where [v] is [None]: "object NoneType can't be used in 'await'
    expression". *)
Definition await_None : T unit := raise TypeError.

Definition ensure_future (t : task) : T unit := log (EvEnsureFuture t).
Definition print (e : exn) : T unit := log (EvPrint e).

(** The event loop recording the child's exit (what makes [returncode]
    something else than [None]). *)
Definition process_exited (code : Z) (st : State) : State :=
  match process (self st) with
  | Some p =>
      match returncode p with
      | None => on_self (set_process (Some (mkProcess (pid p) (Some code)))) st
      | Some _ => st
      end
  | None => st
  end.

(** *** websockets *)

(** [ws.closed]; a reference the transport does not know counts as closed. *)
Definition ws_closed (ws : ws_ref) (st : State) : bool :=
  match streams (world st) !! ws with
  | Some s => closed s
  | None => true
  end.

(** [await ws.send(data)] *)
Definition ws_send (ws : ws_ref) (data : bytes) : T unit :=
  λ st, if ws_closed ws st then (Raise ConnectionClosed, st)
        else (Ok tt, emit (EvSend ws data) st).

(** [await ws.recv()]: the next frame, or [ConnectionClosed] once the peer
    has nothing more to send and disconnects. *)
Definition ws_recv (ws : ws_ref) : T message :=
  λ st, match streams (world st) !! ws with
        | Some s =>
            if closed s then (Raise ConnectionClosed, st)
            else match incoming s with
                 | m :: rest =>
                     (Ok m, emit (EvRecv ws m)
                              (on_world (λ w, set_streams
                                 (<[ws := mkStream false rest]> (streams w)) w) st))
                 | [] =>
                     (Raise ConnectionClosed,
                      on_world (λ w, set_streams
                                 (<[ws := mkStream true []]> (streams w)) w) st)
                 end
        | None => (Raise ConnectionClosed, st)
        end.

(** [ws.close()] written as a statement, without [await]: [close] is a
    coroutine function, so the call only builds a coroutine object that is
    dropped; nothing is sent and the stream's state does not change. *)
Definition ws_close_not_awaited (ws : ws_ref) : T unit :=
  log (EvDroppedClose ws).

(** ** The [Terminal] class *)

(** [__init__(cmdline)]; the class body gives the other attributes their
    defaults.  [subscribers] is the list of the class attribute, empty when
    the session is built. *)
Definition __init__ (cmd : option string) : Terminal :=
  mkTerminal (default "/bin/bash" cmd) None None None [] [] 80 24.

(** *** IS ALIVE *)

Definition _is_process_started (t : Terminal) : bool :=
  match process t with
  | None => false
  | Some _ => true
  end.

Definition _is_process_alive (t : Terminal) : bool :=
  if negb (_is_process_started t) then false
  else match process t with
       | Some p => match returncode p with Some _ => false | None => true end
       | None => false
       end.

Definition _is_process_completed (t : Terminal) : bool :=
  negb (_is_process_alive t) && _is_process_started t.

(** *** SERIALIZE *)

Inductive pyval :=
| PyBool (b : bool)
| PyInt (z : Z).

#[global] Instance pyval_eq_dec : EqDecision pyval.
Proof. solve_decision. Defined.

Definition serialize (t : Terminal) : gmap string pyval :=
  let data : gmap string pyval :=
    <["is_completed" := PyBool (_is_process_completed t)]>
      (<["is_started" := PyBool (_is_process_started t)]> ∅) in
  match process t with
  | Some p =>
      let data := <["pid" := PyInt (pid p)]> data in
      match returncode p with
      | Some c => <["exitcode" := PyInt c]> data
      | None => data
      end
  | None => data
  end.

(** *** PROCESS CONTROL *)

Definition _write_stdin (input : bytes) : T unit :=
  do fd <- get_master_fd;
  do_ os_write fd input;
  do fd' <- get_master_fd;
  os_fsync fd'.

(** [b'%d' % z] *)
Definition format_d (z : Z) : bytes := String.list_byte_of_string (pretty z).

(** [b'\x1b[8;%d;%dt' % (rows, cols)] *)
Definition resize_escape (r c : Z) : bytes :=
  [x1b; "["%byte; "8"%byte; ";"%byte] ++ format_d r ++ [";"%byte]
    ++ format_d c ++ ["t"%byte].

(** The test [self.master_fd is not None] reads the attribute: unset it
    raises, set it is a descriptor, so the branch is always taken. *)
Definition _change_pty_size (r c : Z) : T unit :=
  do_ modify (on_self (set_rows r));
  do_ modify (on_self (set_cols c));
  do fd <- get_master_fd;
  do new_size <- lift_res (struct_pack_HHHH r c 0 0);
  ioctl_TIOCSWINSZ fd new_size.

Definition change_window_size (r c : Z) : T unit :=
  do st <- get;
  if _is_process_alive (self st) then
    do_ _change_pty_size r c;
    do p <- get_process;
    do_ Process_send_signal p SIGWINCH;
    do_ await_None;                 (* await <result of send_signal> *)
    _write_stdin (resize_escape r c)
  else ret tt.

Definition get_terminal_env : T (gmap string string) :=
  do st <- get;
  let result := environ (world st) in
  let result := <["TERM" := "xterm-256color"]> result in
  do home <- (λ s, match result !! "HOME" with
                   | Some h => (Ok h, s)
                   | None => (Raise KeyError, s)
                   end);
  let result := <["PWD" := home]> result in
  do sfd <- get_slave_fd;
  do tty <- os_ttyname sfd;
  let result := <["SSH_TTY" := tty]> result in
  let result := <["LINES" := pretty (rows (self st))]> result in
  let result := <["COLUMNS" := pretty (cols (self st))]> result in
  ret result.

Definition _start_process : T unit :=
  do ms <- pty_openpty;
  do_ modify (on_self (set_fds ms.1 ms.2));
  do st <- get;
  do_ _change_pty_size (rows (self st)) (cols (self st));
  do st <- get;
  do env <- get_terminal_env;
  do p <- create_subprocess_shell (cmdline (self st)) env;
  do_ modify (on_self (set_process (Some p)));
  ensure_future ReadOutputLoop.

Definition _kill_process : T unit :=
  do st <- get;
  do_ (if _is_process_alive (self st)
       then do p <- get_process; Process_kill p
       else ret tt);
  try_except
    (do m <- get_master_fd;
     do_ os_close m;
     do s <- get_slave_fd;
     os_close s)
    any_Exception
    print.

(** *** CONTROL *)

Definition start : T unit := _start_process.

(** *** WEBSOCKET *)

(** [l.index(x)] *)
Fixpoint list_index (x : ws_ref) (l : list ws_ref) : res nat :=
  match l with
  | [] => Raise ValueError
  | y :: l' => if decide (y = x) then Ok 0%nat
               else match list_index x l' with
                    | Ok i => Ok (S i)
                    | Raise e => Raise e
                    end
  end.

(** [l.remove(x)]: the first occurrence goes; [ValueError] when there is none. *)
Fixpoint list_remove (x : ws_ref) (l : list ws_ref) : res (list ws_ref) :=
  match l with
  | [] => Raise ValueError
  | y :: l' => if decide (y = x) then Ok l'
               else match list_remove x l' with
                    | Ok r => Ok (y :: r)
                    | Raise e => Raise e
                    end
  end.

Definition is_subscriber (ws : ws_ref) : T bool :=
  try_except
    (do st <- get;
     do_ lift_res (list_index ws (subscribers (self st)));
     ret true)
    only_ValueError
    (λ _, ret false).

Definition add_subscriber (ws : ws_ref) : T unit :=
  do known <- is_subscriber ws;
  if negb known then
    do_ modify (on_self (λ t, set_subscribers (subscribers t ++ [ws]) t));
    ensure_future (ProcessSubscriber ws)
  else ret tt.

Definition _remove_subscriber (ws : ws_ref) : T unit :=
  do known <- is_subscriber ws;
  if known then
    do st <- get;
    do l <- lift_res (list_remove ws (subscribers (self st)));
    do_ modify (on_self (set_subscribers l));
    do st <- get;
    if negb (ws_closed ws st) then ws_close_not_awaited ws else ret tt
  else ret tt.

(** *** BROADCAST *)

(** The first loop of [broadcast_subscribers]; [acc] is the local list
    [closed]. *)
Fixpoint broadcast_pass (subs : list ws_ref) (data : bytes)
    (acc : list ws_ref) : T (list ws_ref) :=
  match subs with
  | [] => ret acc
  | ws :: subs' =>
      do st <- get;
      if ws_closed ws st then broadcast_pass subs' data (acc ++ [ws])
      else do_ ws_send ws data; broadcast_pass subs' data acc
  end.

Definition broadcast_subscribers (data : bytes) : T unit :=
  do st <- get;
  do closed_subs <- broadcast_pass (subscribers (self st)) data [];
  for_each closed_subs _remove_subscriber.

Definition close_subscribers : T unit :=
  do st <- get;
  for_each (subscribers (self st))
    (λ ws, do st <- get;
           if negb (ws_closed ws st) then ws_close_not_awaited ws else ret tt).

Definition shutdown : T unit :=
  do_ _kill_process;
  do_ close_subscribers;
  modify (on_self (set_subscribers [])).

(** *** Output pump *)

Definition _put_buffer (chars : bytes) (t : Terminal) : Terminal :=
  set_buffer (fold_left (deque_append BUFFER_MAXLEN) chars (buffer t)) t.

(** The size of one read. *)
Definition READ_CHUNK : nat := 50.

Definition _read_output : T (option bytes) :=
  do fd <- get_master_fd;
  do output <- os_read fd READ_CHUNK;
  if decide (0 < length output)%nat then
    do_ modify (on_self (_put_buffer output));
    do_ broadcast_subscribers output;
    ret (Some output)
  else ret None.

Inductive loop_end := Finished | OutOfFuel.

Section Loops.
(** What the rest of the system (other tasks, the child, the peers) does
    while a loop is suspended in [await asyncio.sleep(0)]. *)
Variable sched : State → State.

Definition asyncio_sleep_0 : T unit := modify sched.

(** One turn of the [while] body of [_read_output_loop]. *)
Definition _read_output_loop_body : T unit :=
  do_ try_except (do_ _read_output; ret tt) any_Exception print;
  asyncio_sleep_0.

Fixpoint _read_output_loop (fuel : nat) : T loop_end :=
  match fuel with
  | O => ret OutOfFuel
  | S fuel' =>
      do st <- get;
      if _is_process_alive (self st) then
        do_ _read_output_loop_body;
        _read_output_loop fuel'
      else ret Finished
  end.

(** *** WORKERS *)

(** [bytes(data, 'utf-8')] for a text frame; binary frames pass unchanged. *)
Definition message_bytes (m : message) : bytes :=
  match m with
  | Text s => String.list_byte_of_string s
  | Binary b => b
  end.

(** The [while not ws.closed] loop of [_process_subscriber]. *)
Fixpoint subscriber_loop (fuel : nat) (ws : ws_ref) : T loop_end :=
  match fuel with
  | O => ret OutOfFuel
  | S fuel' =>
      do st <- get;
      if negb (ws_closed ws st) then
        do_ try_except
              (do data <- ws_recv ws;
               _write_stdin (message_bytes data))
              any_Exception print;
        do_ asyncio_sleep_0;
        subscriber_loop fuel' ws
      else ret Finished
  end.

Definition _process_subscriber (fuel : nat) (ws : ws_ref) : T loop_end :=
  do st <- get;
  do_ ws_send ws (buffer (self st));      (* bytes(self.buffer) *)
  do st <- get;
  do_ (if negb (_is_process_started (self st)) then start else ret tt);
  subscriber_loop fuel ws.

End Loops.

(** Running a method for its final state. *)
Definition run {A} (m : T A) (st : State) : State := (m st).2.

(** ** Vocabulary of the statements *)

(** The last [n] elements of a list. *)
Definition last_n {A} (n : nat) (l : list A) : list A :=
  drop (length l - n) l.

(** What [add_subscriber] leaves in the registry. *)
Definition attach (ws : ws_ref) (l : list ws_ref) : list ws_ref :=
  if bool_decide (ws ∈ l) then l else l ++ [ws].

(** Append several events at once. *)
Definition emits (es : list event) (st : State) : State :=
  on_world (λ w, set_trace (trace w ++ es) w) st.

(** [remove] when the element may be absent: the list then stays. *)
Definition remove_first (x : ws_ref) (l : list ws_ref) : list ws_ref :=
  match list_remove x l with
  | Ok r => r
  | Raise _ => l
  end.

(** The signal [_kill_process] delivers: SIGKILL to a process that has no
    exit status recorded, nothing otherwise. *)
Definition kill_signal (t : Terminal) : list event :=
  match process t with
  | Some p => match returncode p with
              | None => [EvSignal (pid p) SIGKILL]
              | Some _ => []
              end
  | None => []
  end.

(** The events of the [try] block of [_kill_process]. *)
Definition is_release_event (e : event) : bool :=
  match e with
  | EvClose _ | EvPrint _ => true
  | _ => false
  end.

(** Writes to a descriptor. *)
Definition is_write (e : event) : bool :=
  match e with
  | EvWrite _ _ => true
  | _ => false
  end.

(** The state right after [os.read(master, 50)] returned [data]. *)
Definition after_read (m : Z) (st : State) : State :=
  emit (EvRead m (take READ_CHUNK (pty_out (world st))))
    (on_world (λ w, set_pty_out (drop READ_CHUNK (pty_out w)) w) st).

(** The state after [n] turns of the body of [_read_output_loop]. *)
Fixpoint pump_turns (sched : State → State) (n : nat) (st : State) : State :=
  match n with
  | O => st
  | S n' => pump_turns sched n' (run (_read_output_loop_body sched) st)
  end.

(** A send to a subscriber. *)
Definition is_send (e : event) : bool :=
  match e with
  | EvSend _ _ => true
  | _ => false
  end.

(** The messages a trace shows as sent to one subscriber, oldest first. *)
Definition sends_to (ws : ws_ref) (tr : list event) : list bytes :=
  omap (λ e, match e with
             | EvSend ws' data => if decide (ws' = ws) then Some data else None
             | _ => None
             end) tr.

(** The scheduler under which a task runs alone: nothing happens while it
    is suspended. *)
Definition alone : State → State := λ st, st.

(** ** Sample sessions *)

(** A session and a world to try the methods on: two connected subscribers,
    a home directory in the environment, descriptors 0-2 taken. *)
Definition world0 : World :=
  mkWorld ∅ ∅ ∅ []
          (<[2%nat := mkStream false []]>
             (<[1%nat := mkStream false [Text "ls"]]> ∅))
          (<["HOME" := "/home/deck"]> ∅) 3 100 [].
Definition fresh_session : State := mkState (__init__ None) world0.
Definition running_session : State := run start fresh_session.

(** One subscriber attached to a running session. *)
Definition attached_session : State := run (add_subscriber 1%nat) running_session.

(** The transport closing a stream behind the session's back. *)
Definition peer_closes (ws : ws_ref) (st : State) : State :=
  on_world (λ w, set_streams (<[ws := mkStream true []]> (streams w)) w) st.

(** The child writing to the slave side of the PTY. *)
Definition child_writes (data : bytes) (st : State) : State :=
  on_world (λ w, set_pty_out (pty_out w ++ data) w) st.

(** A running session with "old" in the scrollback and "hi" written by the
    child but not read yet. *)
Definition racing_session : State :=
  child_writes ["h"; "i"]%byte
    (on_self (_put_buffer ["o"; "l"; "d"]%byte) running_session).

(** ** Vocabulary of the further properties *)

(** The service tasks [add_subscriber] schedules for new subscribers. *)
Definition service_tasks (wss : list ws_ref) : list event :=
  map (λ ws, EvEnsureFuture (ProcessSubscriber ws)) wss.

(** What forwarding one frame to an open PTY master leaves in the trace:
    the frame is written, and the sync that follows is refused and printed. *)
Definition forwarded (m : Z) (ws : ws_ref) (msg : message) : list event :=
  [EvRecv ws msg; EvWrite m (message_bytes msg); EvPrint OSError].

(** Events by which a descriptor is closed, a signal sent or a message sent. *)
Definition is_teardown_event (e : event) : bool :=
  match e with
  | EvClose _ | EvSignal _ _ | EvSend _ _ | EvDroppedClose _ => true
  | _ => false
  end.


(** * Properties *)

(** ** Ring Buffer *)

Lemma deque_append_last_n (cap : nat) (hist : bytes) (x : byte) :
  deque_append cap (last_n cap hist) x = last_n cap (hist ++ [x]).
Proof.
  unfold deque_append, last_n.
  rewrite !length_app, length_drop. simpl.
  case_decide as Hlen.
  - rewrite <- drop_app_le by lia. rewrite drop_drop.
    f_equal. lia.
  - rewrite <- drop_app_le by lia. f_equal. lia.
Qed.

Lemma fold_deque_append_last_n (cap : nat) (chars hist : bytes) :
  fold_left (deque_append cap) chars (last_n cap hist) = last_n cap (hist ++ chars).
Proof.
  revert hist. induction chars as [|x chars IH]; intros hist; simpl.
  - by rewrite app_nil_r.
  - rewrite deque_append_last_n, IH. by rewrite <- app_assoc.
Qed.

Lemma _put_buffer_last_n (chars hist : bytes) (t : Terminal) :
  buffer t = last_n BUFFER_MAXLEN hist →
  buffer (_put_buffer chars t) = last_n BUFFER_MAXLEN (hist ++ chars).
Proof.
  intros Hb. unfold _put_buffer. simpl. rewrite Hb.
  apply fold_deque_append_last_n.
Qed.

Lemma put_chunks_last_n (chunks : list bytes) (hist : bytes) (t : Terminal) :
  buffer t = last_n BUFFER_MAXLEN hist →
  buffer (fold_left (λ t c, _put_buffer c t) chunks t)
  = last_n BUFFER_MAXLEN (hist ++ concat chunks).
Proof.
  revert hist t. induction chunks as [|c chunks IH]; intros hist t Hb; simpl.
  - by rewrite app_nil_r.
  - rewrite (IH (hist ++ c)).
    + by rewrite <- app_assoc.
    + by apply _put_buffer_last_n.
Qed.

Lemma last_n_min {A} (n : nat) (l : list A) :
  last_n (Nat.min (length l) n) l = last_n n l.
Proof. unfold last_n. f_equal. lia. Qed.

Lemma length_last_n {A} (n : nat) (l : list A) :
  length (last_n n l) = Nat.min (length l) n.
Proof. unfold last_n. rewrite length_drop. lia. Qed.

(** C2. Whatever chunks [_put_buffer] is given after [__init__], the buffer
    (the snapshot [bytes(self.buffer)]) is the last min(total, 4096) bytes of
    their concatenation, in order; in particular it holds that many bytes. *)
Theorem ring_buffer_keeps_latest (cmd : option string) (chunks : list bytes) :
  let all := concat chunks in
  let snapshot := buffer (fold_left (λ t c, _put_buffer c t) chunks (__init__ cmd)) in
  snapshot = last_n (Nat.min (length all) 4096) all
  ∧ length snapshot = Nat.min (length all) 4096.
Proof.
  simpl.
  assert (Hb : buffer (fold_left (λ t c, _put_buffer c t) chunks (__init__ cmd))
               = last_n BUFFER_MAXLEN (concat chunks)).
  { apply (put_chunks_last_n chunks [] (__init__ cmd)). reflexivity. }
  rewrite Hb. split.
  - symmetry. apply (last_n_min 4096).
  - apply length_last_n.
Qed.

(** ** Status snapshot *)

(** C9. [serialize] always has [is_started] and [is_completed]; [pid] is
    there exactly when a process object exists, [exitcode] exactly when that
    process has a recorded exit status; [is_started] is true exactly when a
    process exists and [is_completed] exactly when it exists and has an exit
    status. *)
Theorem serialize_snapshot (t : Terminal) :
  let data := serialize t in
  let exited := ∃ p c, process t = Some p ∧ returncode p = Some c in
  (∃ b, data !! "is_started" = Some (PyBool b) ∧ (b = true ↔ is_Some (process t)))
  ∧ (∃ b, data !! "is_completed" = Some (PyBool b) ∧ (b = true ↔ exited))
  ∧ data !! "pid" = PyInt ∘ pid <$> process t
  ∧ data !! "exitcode" = PyInt <$> (process t ≫= returncode)
  ∧ ("pid" ∈ dom data ↔ is_Some (process t))
  ∧ ("exitcode" ∈ dom data ↔ exited)
  ∧ dom data ⊆ {["is_started"; "is_completed"; "pid"; "exitcode"]}.
Proof.
  simpl.
  unfold serialize, _is_process_completed, _is_process_alive, _is_process_started.
  rewrite !elem_of_dom.
  destruct (process t) as [[p [c|]]|]; simpl.
  - split_and!.
    + exists true. split; [by simplify_map_eq | split; eauto].
    + exists true. split; [by simplify_map_eq | split; eauto].
    + by simplify_map_eq.
    + by simplify_map_eq.
    + simplify_map_eq. split; eauto.
    + simplify_map_eq. split; eauto.
    + rewrite !dom_insert_L. set_solver.
  - assert (Hno : ¬ ∃ (p0 : Process) (c0 : Z),
               Some (mkProcess p None) = Some p0 ∧ returncode p0 = Some c0).
    { intros (p0 & c0 & [= <-] & Hc). discriminate. }
    split_and!.
    + exists true. split; [by simplify_map_eq | split; eauto].
    + exists false. split; [by simplify_map_eq | split; [done | by intros ?%Hno]].
    + by simplify_map_eq.
    + by simplify_map_eq.
    + simplify_map_eq. split; eauto.
    + simplify_map_eq. split; [by intros ?%is_Some_None | by intros ?%Hno].
    + rewrite !dom_insert_L. set_solver.
  - assert (Hno : ¬ ∃ (p0 : Process) (c0 : Z), None = Some p0 ∧ returncode p0 = Some c0).
    { intros (p0 & c0 & Hp & _). discriminate. }
    split_and!.
    + exists false. split; [by simplify_map_eq | split; [done | by intros ?%is_Some_None]].
    + exists false. split; [by simplify_map_eq | split; [done | by intros ?%Hno]].
    + by simplify_map_eq.
    + by simplify_map_eq.
    + simplify_map_eq. split; by intros ?%is_Some_None.
    + simplify_map_eq. split; [by intros ?%is_Some_None | by intros ?%Hno].
    + rewrite !dom_insert_L. set_solver.
Qed.

(** ** Subscriber registry *)

Lemma list_index_elem (x : ws_ref) (l : list ws_ref) :
  (x ∈ l → ∃ i, list_index x l = Ok i) ∧ (x ∉ l → list_index x l = Raise ValueError).
Proof.
  induction l as [|y l [IHin IHout]]; simpl.
  - split; [by intros ?%elem_of_nil | done].
  - case_decide as Hy.
    + split; [eauto | intros Hn; exfalso; apply Hn; subst; left].
    + split.
      * intros [->|Hin]%elem_of_cons; [done|].
        destruct (IHin Hin) as [i ->]. eauto.
      * intros Hn. rewrite IHout; [done|].
        intros Hin. apply Hn. by right.
Qed.

Lemma is_subscriber_spec (ws : ws_ref) (st : State) :
  is_subscriber ws st = (Ok (bool_decide (ws ∈ subscribers (self st))), st).
Proof.
  unfold is_subscriber, try_except, bind, get, lift_res, ret. simpl.
  destruct (list_index_elem ws (subscribers (self st))) as [Hin Hout].
  case_bool_decide as Hd.
  - destruct (Hin Hd) as [i ->]. done.
  - by rewrite (Hout Hd).
Qed.

Lemma add_subscriber_spec (ws : ws_ref) (st : State) :
  add_subscriber ws st
  = (Ok tt,
     if bool_decide (ws ∈ subscribers (self st)) then st
     else emit (EvEnsureFuture (ProcessSubscriber ws))
            (on_self (set_subscribers (subscribers (self st) ++ [ws])) st)).
Proof.
  unfold add_subscriber, bind. rewrite is_subscriber_spec.
  by case_bool_decide.
Qed.

Lemma add_subscriber_registry (ws : ws_ref) (st : State) :
  subscribers (self (run (add_subscriber ws) st)) = attach ws (subscribers (self st)).
Proof.
  unfold run, attach. rewrite add_subscriber_spec. simpl.
  by case_bool_decide.
Qed.

Lemma attach_elem (ws : ws_ref) (l : list ws_ref) : ws ∈ attach ws l.
Proof.
  unfold attach. case_bool_decide; [done|].
  apply elem_of_app. right. left.
Qed.

Lemma attach_NoDup (ws : ws_ref) (l : list ws_ref) : NoDup l → NoDup (attach ws l).
Proof.
  intros Hl. unfold attach. case_bool_decide as Hin; [done|].
  apply NoDup_app. split_and!; [done| |apply NoDup_singleton].
  intros x Hx ->%list_elem_of_singleton. done.
Qed.

Lemma attach_all_NoDup (wss l : list ws_ref) :
  NoDup l → NoDup (foldl (λ l ws, attach ws l) l wss).
Proof.
  revert l. induction wss as [|ws wss IH]; intros l Hl; simpl; [done|].
  apply IH. by apply attach_NoDup.
Qed.

Lemma NoDup_count_occ_1 (ws : ws_ref) (l : list ws_ref) :
  NoDup l → ws ∈ l → count_occ Nat.eq_dec l ws = 1%nat.
Proof.
  intros Hnd Hin. apply NoDup_ListNoDup in Hnd.
  apply list_elem_of_In in Hin.
  pose proof (proj1 (List.NoDup_count_occ Nat.eq_dec l) Hnd ws) as Hle.
  pose proof (proj1 (List.count_occ_In Nat.eq_dec l ws) Hin) as Hge.
  lia.
Qed.

(** The registry of a sequence of [add_subscriber] calls. *)
Lemma add_subscribers_registry (wss : list ws_ref) (st : State) :
  subscribers (self (foldl (λ st ws, run (add_subscriber ws) st) st wss))
  = foldl (λ l ws, attach ws l) (subscribers (self st)) wss.
Proof.
  revert st. induction wss as [|ws wss IH]; intros st; simpl; [done|].
  by rewrite IH, add_subscriber_registry.
Qed.

(** C8. In a session whose registry holds no subscriber twice, attaching [ws]
    twice is the same as attaching it once: the second [add_subscriber]
    changes nothing (no new entry, no second service task), the registry then
    holds [ws] exactly once, and no sequence of attachments ever makes a
    subscriber appear twice. *)
Theorem add_subscriber_twice (ws : ws_ref) (st : State) :
  NoDup (subscribers (self st)) →
  let st1 := run (add_subscriber ws) st in
  let st2 := run (add_subscriber ws) st1 in
  st2 = st1
  ∧ count_occ Nat.eq_dec (subscribers (self st2)) ws = 1%nat
  ∧ ∀ wss, NoDup (subscribers (self (foldl (λ st ws, run (add_subscriber ws) st) st wss))).
Proof.
  intros Hnd st1 st2.
  assert (Hin : ws ∈ subscribers (self st1)).
  { unfold st1. rewrite add_subscriber_registry. apply attach_elem. }
  assert (H21 : st2 = st1).
  { unfold st2, run. rewrite add_subscriber_spec. simpl.
    by rewrite bool_decide_eq_true_2. }
  split_and!.
  - done.
  - rewrite H21. apply NoDup_count_occ_1; [|done].
    unfold st1. rewrite add_subscriber_registry. by apply attach_NoDup.
  - intros wss. rewrite add_subscribers_registry. by apply attach_all_NoDup.
Qed.

(** Subscriber 2 joins a session that already serves subscriber 1. *)
Lemma add_subscriber_twice_witness :
  let st := attached_session in
  NoDup (subscribers (self st))
  ∧ run (add_subscriber 2%nat) (run (add_subscriber 2%nat) st)
    = run (add_subscriber 2%nat) st
  ∧ count_occ Nat.eq_dec
      (subscribers (self (run (add_subscriber 2%nat) (run (add_subscriber 2%nat) st))))
      2%nat = 1%nat.
Proof.
  assert (Hnd : NoDup (subscribers (self attached_session))).
  { vm_compute. apply NoDup_singleton. }
  destruct (add_subscriber_twice 2%nat attached_session Hnd) as (Hsame & Hone & _).
  split_and!; [exact Hnd | exact Hsame | exact Hone].
Defined.

(** ** Trace bookkeeping *)

Lemma emit_emits_1 (e : event) (st : State) : emit e st = emits [e] st.
Proof. reflexivity. Qed.

Lemma emits_emits (es es' : list event) (st : State) :
  emits es' (emits es st) = emits (es ++ es') st.
Proof. unfold emits, on_world, set_trace. simpl. by rewrite app_assoc. Qed.

Lemma emit_emits (e : event) (es : list event) (st : State) :
  emit e (emits es st) = emits (es ++ [e]) st.
Proof. rewrite emit_emits_1. apply emits_emits. Qed.

Lemma emits_nil (st : State) : emits [] st = st.
Proof.
  destruct st as [t [? ? ? ? ? ? ? ? tr]]. unfold emits, on_world, set_trace.
  simpl. by rewrite app_nil_r.
Qed.

Lemma set_subscribers_same (st : State) :
  on_self (set_subscribers (subscribers (self st))) st = st.
Proof. by destruct st as [[] ?]. Qed.

Lemma ws_closed_emits (ws : ws_ref) (es : list event) (st : State) :
  ws_closed ws (emits es st) = ws_closed ws st.
Proof. reflexivity. Qed.

Lemma ws_closed_on_self (ws : ws_ref) (f : Terminal → Terminal) (st : State) :
  ws_closed ws (on_self f st) = ws_closed ws st.
Proof. reflexivity. Qed.

(** ** Broadcast *)

Lemma list_remove_elem (x : ws_ref) (l : list ws_ref) :
  x ∈ l → list_remove x l = Ok (remove_first x l).
Proof.
  unfold remove_first. induction l as [|y l IH]; simpl.
  - by intros ?%elem_of_nil.
  - case_decide as Hy; [done|].
    intros [->|Hin]%elem_of_cons; [done|].
    specialize (IH Hin). by destruct (list_remove x l).
Qed.

Lemma remove_first_cons_eq (x : ws_ref) (l : list ws_ref) :
  remove_first x (x :: l) = l.
Proof. unfold remove_first. simpl. by rewrite decide_True. Qed.

Lemma remove_first_cons_ne (x y : ws_ref) (l : list ws_ref) :
  y ≠ x → remove_first x (y :: l) = y :: remove_first x l.
Proof.
  intros Hne. unfold remove_first. simpl. rewrite decide_False by done.
  by destruct (list_remove x l).
Qed.

Lemma remove_first_app_notin (x : ws_ref) (pre l : list ws_ref) :
  x ∉ pre → remove_first x (pre ++ l) = pre ++ remove_first x l.
Proof.
  induction pre as [|y pre IH]; intros Hn; simpl; [done|].
  rewrite remove_first_cons_ne.
  - rewrite IH; [done|]. intros Hin. apply Hn. by right.
  - intros ->. apply Hn. left.
Qed.

(** Removing, one by one, the flagged elements of [l] leaves the others,
    in order. *)
Lemma remove_flagged (flag : ws_ref → bool) (l pre : list ws_ref) :
  (∀ x, x ∈ pre → flag x = false) →
  foldl (λ acc ws, remove_first ws acc) (pre ++ l) (List.filter flag l)
  = pre ++ List.filter (λ ws, negb (flag ws)) l.
Proof.
  revert pre. induction l as [|x l IH]; intros pre Hpre; simpl; [done|].
  destruct (flag x) eqn:Hx; simpl.
  - rewrite remove_first_app_notin, remove_first_cons_eq.
    + by apply IH.
    + intros Hin. apply Hpre in Hin. congruence.
  - replace (pre ++ x :: l) with ((pre ++ [x]) ++ l) by by rewrite <- app_assoc.
    rewrite IH.
    + by rewrite <- app_assoc.
    + intros y [Hy| ->%list_elem_of_singleton]%elem_of_app; [by apply Hpre | done].
Qed.

Lemma _remove_subscriber_spec (ws : ws_ref) (st : State) :
  _remove_subscriber ws st
  = (Ok tt,
     if bool_decide (ws ∈ subscribers (self st)) then
       let st' := on_self (set_subscribers (remove_first ws (subscribers (self st)))) st in
       if ws_closed ws st then st' else emit (EvDroppedClose ws) st'
     else st).
Proof.
  unfold _remove_subscriber, bind. rewrite is_subscriber_spec.
  case_bool_decide as Hin; [|done].
  unfold get, lift_res. rewrite (list_remove_elem _ _ Hin).
  unfold modify. rewrite ws_closed_on_self.
  by destruct (ws_closed ws st).
Qed.

Lemma remove_closed_subscribers (cs : list ws_ref) (st : State) :
  Forall (λ ws, ws_closed ws st = true) cs →
  for_each cs _remove_subscriber st
  = (Ok tt, on_self (set_subscribers
                       (foldl (λ acc ws, remove_first ws acc) (subscribers (self st)) cs)) st).
Proof.
  revert st. induction cs as [|ws cs IH]; intros st Hcs; simpl.
  - unfold ret. by rewrite set_subscribers_same.
  - apply Forall_cons in Hcs as [Hws Hcs].
    unfold bind. rewrite _remove_subscriber_spec, Hws.
    case_bool_decide as Hin.
    + rewrite IH by done. done.
    + rewrite IH by done.
      assert (Hrm : remove_first ws (subscribers (self st)) = subscribers (self st)).
      { unfold remove_first.
        destruct (list_remove ws (subscribers (self st))) as [r|e] eqn:Hr; [|done].
        exfalso. apply Hin. clear -Hr.
        revert r Hr. induction (subscribers (self st)) as [|y l IHl]; simpl; [done|].
        intros r. case_decide as Hy; [intros _; subst; left|].
        destruct (list_remove ws l); [|done]. intros _. right. eauto. }
      by rewrite Hrm.
Qed.

Lemma broadcast_pass_spec (data : bytes) (st : State) (subs acc : list ws_ref)
    (es : list event) :
  broadcast_pass subs data acc (emits es st)
  = (Ok (acc ++ List.filter (λ ws, ws_closed ws st) subs),
     emits (es ++ map (λ ws, EvSend ws data)
                      (List.filter (λ ws, negb (ws_closed ws st)) subs)) st).
Proof.
  revert acc es. induction subs as [|ws subs IH]; intros acc es; simpl.
  - unfold ret. by rewrite !app_nil_r.
  - unfold bind, get. rewrite ws_closed_emits.
    destruct (ws_closed ws st) eqn:Hc; simpl.
    + rewrite IH. by rewrite <- app_assoc.
    + unfold ws_send. rewrite ws_closed_emits, Hc, emit_emits, IH.
      by rewrite <- app_assoc.
Qed.

(** The closed form of one broadcast. *)
Lemma broadcast_subscribers_spec (data : bytes) (st : State) :
  let live := List.filter (λ ws, negb (ws_closed ws st)) (subscribers (self st)) in
  broadcast_subscribers data st
  = (Ok tt, on_self (set_subscribers live) (emits (map (λ ws, EvSend ws data) live) st)).
Proof.
  simpl. unfold broadcast_subscribers, bind, get.
  pose proof (broadcast_pass_spec data st (subscribers (self st)) [] []) as Hpass.
  rewrite emits_nil in Hpass. rewrite Hpass. simpl.
  rewrite remove_closed_subscribers.
  - simpl.
    pose proof (remove_flagged (λ ws, ws_closed ws st) (subscribers (self st)) [])
      as Hrm.
    simpl in Hrm. rewrite Hrm; [done|].
    by intros x ?%elem_of_nil.
  - apply Forall_forall. intros ws Hin%list_elem_of_In%List.filter_In.
    rewrite ws_closed_emits. tauto.
Qed.

(** C6. One [broadcast_subscribers data]: it returns normally; what it sends
    is [data], once per registered subscriber whose stream is open, in
    registry order, and nothing else happens in the world; the registry is
    left untouched while the sends are made and afterwards holds exactly the
    subscribers whose stream is open; a subscriber found closed gets no
    message, is no longer registered, and its stream is closed. *)
Theorem broadcast_delivers_and_prunes (data : bytes) (st : State) :
  let subs := subscribers (self st) in
  let live := List.filter (λ ws, negb (ws_closed ws st)) subs in
  let sent := map (λ ws, EvSend ws data) live in
  let st' := run (broadcast_subscribers data) st in
  fst (broadcast_subscribers data st) = Ok tt
  ∧ world st' = set_trace (trace (world st) ++ sent) (world st)
  ∧ self (run (broadcast_pass subs data []) st) = self st
  ∧ self st' = set_subscribers live (self st)
  ∧ (∀ ws, ws ∈ subs → ws_closed ws st = false →
       EvSend ws data ∈ sent ∧ ws ∈ subscribers (self st'))
  ∧ (∀ ws, ws ∈ subs → ws_closed ws st = true →
       (∀ d, EvSend ws d ∉ sent) ∧ (ws ∉ subscribers (self st'))
       ∧ ws_closed ws st' = true).
Proof.
  simpl. unfold run.
  pose proof (broadcast_pass_spec data st (subscribers (self st)) [] []) as Hpass.
  rewrite emits_nil in Hpass. rewrite Hpass.
  rewrite broadcast_subscribers_spec. simpl.
  split_and!; try done.
  - intros ws Hin Hopen.
    assert (Hlive : ws ∈ List.filter (λ ws, negb (ws_closed ws st)) (subscribers (self st))).
    { apply list_elem_of_In, List.filter_In. split; [by apply list_elem_of_In|].
      by rewrite Hopen. }
    split; [|done].
    apply list_elem_of_fmap. eauto.
  - intros ws Hin Hclosed.
    assert (Hdead : ws ∉ List.filter (λ ws, negb (ws_closed ws st)) (subscribers (self st))).
    { intros [_ Hf]%list_elem_of_In%List.filter_In. by rewrite Hclosed in Hf. }
    split_and!; [|done|done].
    intros d (ws' & [= <- _] & Hws')%list_elem_of_fmap. done.
Qed.

(** Two subscribers, one of them closed by its peer: the open one gets the
    payload and stays, the closed one is pruned. *)
Lemma broadcast_delivers_and_prunes_witness :
  let st := peer_closes 1%nat
              (run (add_subscriber 2%nat) (run (add_subscriber 1%nat) running_session)) in
  let hi := ["h"%byte; "i"%byte] in
  (2%nat ∈ subscribers (self st) ∧ ws_closed 2%nat st = false)
  ∧ (1%nat ∈ subscribers (self st) ∧ ws_closed 1%nat st = true)
  ∧ subscribers (self (run (broadcast_subscribers hi) st)) = [2%nat]
  ∧ 2%nat ∈ subscribers (self (run (broadcast_subscribers hi) st))
  ∧ 1%nat ∉ subscribers (self (run (broadcast_subscribers hi) st)).
Proof.
  set (st := peer_closes 1%nat
              (run (add_subscriber 2%nat) (run (add_subscriber 1%nat) running_session))).
  set (hi := ["h"%byte; "i"%byte]).
  assert (Hsubs : subscribers (self st) = [1%nat; 2%nat]) by (vm_compute; reflexivity).
  assert (Hin2 : 2%nat ∈ subscribers (self st)).
  { rewrite Hsubs. apply list_elem_of_In. simpl. tauto. }
  assert (Hin1 : 1%nat ∈ subscribers (self st)).
  { rewrite Hsubs. apply list_elem_of_In. simpl. tauto. }
  assert (Ho2 : ws_closed 2%nat st = false) by (vm_compute; reflexivity).
  assert (Hc1 : ws_closed 1%nat st = true) by (vm_compute; reflexivity).
  destruct (broadcast_delivers_and_prunes hi st) as (_ & _ & _ & Hself & Hopen & Hclosed).
  split_and!.
  - exact Hin2.
  - exact Ho2.
  - exact Hin1.
  - exact Hc1.
  - vm_compute. reflexivity.
  - apply (Hopen 2%nat Hin2 Ho2).
  - apply (Hclosed 1%nat Hin1 Hc1).
Defined.

(** ** Shutdown *)

Lemma _kill_process_effect (st : State) :
  ∃ fds es,
    _kill_process st
    = (Ok tt, mkState (self st)
                (set_open_fds fds
                   (set_trace (trace (world st) ++ kill_signal (self st) ++ es) (world st))))
    ∧ fds ⊆ open_fds (world st)
    ∧ (∀ m, master_fd (self st) = Some m → m ∉ fds)
    ∧ forallb is_release_event es = true.
Proof.
  destruct st as [[cmd proc m s subs buf c r] [fds wz tt po str env nf np tr]].
  unfold _kill_process, bind, get, try_except, get_process, Process_kill,
    Process_send_signal, log, modify, get_master_fd, get_slave_fd, os_close,
    fd_open, print, log, modify, ret, kill_signal, _is_process_alive,
    _is_process_started, any_Exception, emit, on_world, set_trace, set_open_fds.
  simpl.
  destruct proc as [[p [code|]]|]; simpl.
  all: destruct m as [m|]; simpl.
  all: try case_bool_decide; simpl.
  all: try destruct s as [s|]; simpl.
  all: try case_bool_decide; simpl.
  all: rewrite <- ?app_assoc; simpl.
  all: eexists _, _; split_and!; [reflexivity| | |reflexivity].
  all: try set_solver.
Qed.

Lemma close_subscribers_pass (st : State) (subs : list ws_ref) (es : list event) :
  for_each subs
    (λ ws, do st <- get;
           if negb (ws_closed ws st) then ws_close_not_awaited ws else ret tt)
    (emits es st)
  = (Ok tt, emits (es ++ map EvDroppedClose
                          (List.filter (λ ws, negb (ws_closed ws st)) subs)) st).
Proof.
  revert es. induction subs as [|ws subs IH]; intros es; simpl.
  - unfold ret. by rewrite app_nil_r.
  - unfold bind, get. rewrite ws_closed_emits.
    destruct (ws_closed ws st); simpl.
    + unfold ret. apply IH.
    + unfold ws_close_not_awaited, log, modify. rewrite emit_emits, IH.
      by rewrite <- app_assoc.
Qed.

Lemma close_subscribers_spec (st : State) :
  close_subscribers st
  = (Ok tt, emits (map EvDroppedClose
                     (List.filter (λ ws, negb (ws_closed ws st)) (subscribers (self st)))) st).
Proof.
  unfold close_subscribers, bind, get.
  pose proof (close_subscribers_pass st (subscribers (self st)) []) as Hpass.
  by rewrite emits_nil in Hpass.
Qed.

(** What [shutdown] does, in one equation: the object loses its registry and
    nothing else; the world loses descriptors and gains trace. *)
Lemma shutdown_effect (st : State) :
  ∃ fds es,
    shutdown st
    = (Ok tt, mkState (set_subscribers [] (self st))
                (set_open_fds fds
                   (set_trace (trace (world st) ++ kill_signal (self st) ++ es) (world st))))
    ∧ fds ⊆ open_fds (world st)
    ∧ (∀ m, master_fd (self st) = Some m → m ∉ fds).
Proof.
  destruct (_kill_process_effect st) as (fds & es & Hkill & Hsub & Hm & _).
  unfold shutdown, bind. rewrite Hkill, close_subscribers_spec.
  eexists fds, _. split_and!; [|done|done].
  unfold modify, emits, on_self, on_world, set_trace, set_open_fds. simpl.
  rewrite <- !app_assoc. reflexivity.
Qed.

(** C10. [shutdown] leaves the scrollback buffer, [rows], [cols], the command
    line and the process object (so also what [serialize] reports) as they
    were.  Of the object only the registry changes; of the world only the set
    of open descriptors and the trace (where the kill signal is). *)
Theorem shutdown_frame (st : State) :
  let st' := run shutdown st in
  buffer (self st') = buffer (self st)
  ∧ rows (self st') = rows (self st)
  ∧ cols (self st') = cols (self st)
  ∧ cmdline (self st') = cmdline (self st)
  ∧ process (self st') = process (self st)
  ∧ serialize (self st') = serialize (self st)
  ∧ self st' = set_subscribers [] (self st)
  ∧ world st' = set_open_fds (open_fds (world st'))
                  (set_trace (trace (world st')) (world st)).
Proof.
  simpl. unfold run.
  destruct (shutdown_effect st) as (fds & es & -> & _). simpl.
  split_and!; reflexivity.
Qed.




(** The registry never holds a subscriber twice: true of a new session and
    kept by every method that touches the registry. *)
Lemma registry_NoDup_preserved (st : State) (ws : ws_ref) (data : bytes) :
  NoDup (subscribers (__init__ None))
  ∧ (NoDup (subscribers (self st)) →
     NoDup (subscribers (self (run (add_subscriber ws) st)))
     ∧ NoDup (subscribers (self (run (broadcast_subscribers data) st)))
     ∧ NoDup (subscribers (self (run shutdown st)))).
Proof.
  split; [apply NoDup_nil_2|]. intros Hnd. split_and!.
  - rewrite add_subscriber_registry. by apply attach_NoDup.
  - unfold run. rewrite broadcast_subscribers_spec. simpl.
    apply NoDup_ListNoDup, List.NoDup_filter. by apply NoDup_ListNoDup.
  - unfold run. destruct (shutdown_effect st) as (fds & es & -> & _). simpl.
    apply NoDup_nil_2.
Qed.

(** ** Resize *)

Lemma Z_of_byte_of_Z (z : Z) : 0 ≤ z < 256 → Z_of_byte (byte_of_Z z) = z.
Proof.
  intros Hz. unfold Z_of_byte, byte_of_Z.
  rewrite Z.mod_small by lia.
  destruct (Byte.of_N (Z.to_N z)) as [b|] eqn:Hb; simpl.
  - apply Byte.to_of_N in Hb. lia.
  - apply Byte.of_N_None_iff in Hb. lia.
Qed.

Lemma pack_H_ok (v : Z) :
  0 ≤ v ≤ 65535 →
  ∃ lo hi, pack_H v = Ok [lo; hi] ∧ Z_of_byte lo + 256 * Z_of_byte hi = v.
Proof.
  intros Hv. unfold pack_H. rewrite decide_True by done.
  eexists _, _. split; [reflexivity|].
  change 255 with (Z.ones 8). rewrite Z.land_ones by lia.
  rewrite Z.shiftr_div_pow2 by lia. change (2 ^ 8) with 256.
  rewrite !Z_of_byte_of_Z.
  - pose proof (Z.div_mod v 256). lia.
  - split; [apply Z.div_pos; lia | apply Z.div_lt_upper_bound; lia].
  - apply Z.mod_pos_bound. lia.
Qed.

Lemma pack_H_bad (v : Z) : ¬ 0 ≤ v ≤ 65535 → pack_H v = Raise StructError.
Proof. intros Hv. unfold pack_H. by rewrite decide_False. Qed.

(** [struct.pack('HHHH', r, c, 0, 0)] followed by the kernel's decoding. *)
Lemma struct_pack_winsize (r c : Z) :
  if decide (0 ≤ r ≤ 65535 ∧ 0 ≤ c ≤ 65535) then
    ∃ arg, struct_pack_HHHH r c 0 0 = Ok arg ∧ unpack_winsize arg = Some (r, c)
  else struct_pack_HHHH r c 0 0 = Raise StructError.
Proof.
  unfold struct_pack_HHHH. case_decide as Hrc.
  - destruct Hrc as [Hr Hc].
    destruct (pack_H_ok r Hr) as (r0 & r1 & -> & Hre).
    destruct (pack_H_ok c Hc) as (c0 & c1 & -> & Hce).
    eexists. split; [reflexivity|]. simpl. by rewrite Hre, Hce.
  - destruct (decide (0 ≤ r ≤ 65535)) as [Hr|Hr].
    + destruct (pack_H_ok r Hr) as (r0 & r1 & -> & _).
      rewrite pack_H_bad; [done|]. intros Hc. by apply Hrc.
    + by rewrite (pack_H_bad r Hr).
Qed.

(** The closed form of [_change_pty_size]: the new size is stored first, and
    stays stored whatever happens next. *)
Lemma _change_pty_size_spec (r c : Z) (st : State) :
  let st1 := on_self (set_cols c) (on_self (set_rows r) st) in
  _change_pty_size r c st
  = match master_fd (self st) with
    | None => (Raise AttributeError, st1)
    | Some m =>
        match struct_pack_HHHH r c 0 0 with
        | Ok arg =>
            if fd_open m st then
              (Ok tt, emit (EvIoctlWinsz m arg)
                        (on_world (λ w, set_winsize (<[m := (r, c)]> (winsize w)) w) st1))
            else (Raise OSError, st1)
        | Raise e => (Raise e, st1)
        end
    end.
Proof.
  simpl. unfold _change_pty_size, bind, modify, get_master_fd, lift_res. simpl.
  destruct (master_fd (self st)) as [m|]; [|done].
  pose proof (struct_pack_winsize r c) as Hpack.
  case_decide as Hrc.
  - destruct Hpack as (arg & -> & Harg).
    unfold ioctl_TIOCSWINSZ. rewrite Harg.
    change (fd_open m (on_self (set_cols c) (on_self (set_rows r) st))) with (fd_open m st).
    by destruct (fd_open m st).
  - by rewrite Hpack.
Qed.

(** The closed form of [change_window_size]: for a live process the size is
    changed and the signal sent, and then the [await] on the signal call's
    result raises; the line that writes the escape sequence is not reached. *)
Lemma change_window_size_spec (r c : Z) (st : State) :
  change_window_size r c st
  = match process (self st) with
    | Some p =>
        match returncode p with
        | None =>
            match _change_pty_size r c st with
            | (Ok _, st1) => (Raise TypeError, emit (EvSignal (pid p) SIGWINCH) st1)
            | (Raise e, st1) => (Raise e, st1)
            end
        | Some _ => (Ok tt, st)
        end
    | None => (Ok tt, st)
    end.
Proof.
  unfold change_window_size, bind, get, _is_process_alive, _is_process_started.
  destruct (process (self st)) as [[p [code|]]|] eqn:Hp; simpl; try done.
  rewrite _change_pty_size_spec. simpl.
  destruct (master_fd (self st)) as [m|]; [|done].
  destruct (struct_pack_HHHH r c 0 0) as [arg|e]; [|done].
  destruct (fd_open m st); [|done].
  unfold get_process. simpl. rewrite Hp. reflexivity.
Qed.

(** No state and no size make [change_window_size] write to the PTY master. *)
Lemma change_window_size_never_writes (r c : Z) (st : State) :
  ∃ es, trace (world (run (change_window_size r c) st)) = trace (world st) ++ es
        ∧ existsb is_write es = false.
Proof.
  unfold run. rewrite change_window_size_spec.
  destruct (process (self st)) as [[p [code|]]|]; simpl;
    try (exists []; by rewrite app_nil_r).
  rewrite _change_pty_size_spec. simpl.
  destruct (master_fd (self st)) as [m|]; [|exists []; by rewrite app_nil_r].
  destruct (struct_pack_HHHH r c 0 0) as [arg|e]; [|exists []; by rewrite app_nil_r].
  destruct (fd_open m st); [|exists []; by rewrite app_nil_r].
  simpl. eexists [_; _]. by rewrite <- app_assoc.
Qed.

(** On a live process, with a size that fits the 16-bit fields and the PTY
    master open: the size is stored, set on the PTY, the child is signalled,
    in that order, and the call raises [TypeError] there. *)
Lemma change_window_size_alive (r c : Z) (st : State) (p : Process) (m : Z) :
  process (self st) = Some p → returncode p = None →
  master_fd (self st) = Some m → fd_open m st = true →
  0 ≤ r ≤ 65535 ∧ 0 ≤ c ≤ 65535 →
  let st' := run (change_window_size r c) st in
  fst (change_window_size r c st) = Raise TypeError
  ∧ (rows (self st'), cols (self st')) = (r, c)
  ∧ winsize (world st') !! m = Some (r, c)
  ∧ ∃ arg, unpack_winsize arg = Some (r, c)
           ∧ trace (world st')
             = trace (world st) ++ [EvIoctlWinsz m arg; EvSignal (pid p) SIGWINCH].
Proof.
  intros Hp Hrc Hm Hopen Hsize. simpl. unfold run.
  rewrite change_window_size_spec, Hp, Hrc, _change_pty_size_spec, Hm, Hopen.
  pose proof (struct_pack_winsize r c) as Hpack.
  rewrite decide_True in Hpack by done. destruct Hpack as (arg & -> & Harg).
  simpl. split_and!; try done.
  - apply lookup_insert_eq.
  - exists arg. split; [done|]. by rewrite <- app_assoc.
Qed.

(** C3, on a running session. [change_window_size 30 100] stores the size,
    sets it on the PTY and signals the child, in that order, and then raises
    [TypeError]: nothing is written to the PTY master, the escape sequence
    ESC [ 8 ; 30 ; 100 t in particular. *)
Theorem resize_stops_before_escape :
  let st := running_session in
  let st' := run (change_window_size 30 100) st in
  _is_process_alive (self st) = true
  ∧ fst (change_window_size 30 100 st) = Raise TypeError
  ∧ rows (self st') = 30 ∧ cols (self st') = 100
  ∧ winsize (world st') !! 3 = Some (30, 100)
  ∧ drop (length (trace (world st))) (trace (world st'))
    = [EvIoctlWinsz 3 [x1e; x00; x64; x00; x00; x00; x00; x00]; EvSignal 100 SIGWINCH]
  ∧ existsb is_write (trace (world st')) = false.
Proof. simpl. split_and!; vm_compute; reflexivity. Qed.

(** The sequence the skipped line would have written. *)
Lemma resize_escape_30_100 :
  resize_escape 30 100
  = [x1b; "["; "8"; ";"; "3"; "0"; ";"; "1"; "0"; "0"; "t"]%byte.
Proof. vm_compute. reflexivity. Qed.

(** On a process that is not alive [change_window_size] does nothing. *)
Lemma change_window_size_not_alive (r c : Z) (st : State) :
  _is_process_alive (self st) = false → change_window_size r c st = (Ok tt, st).
Proof.
  intros Halive. rewrite change_window_size_spec.
  unfold _is_process_alive, _is_process_started in Halive.
  by destruct (process (self st)) as [[p [code|]]|].
Qed.

(** A resize that fails on the device side: 70000 rows do not fit the 16-bit
    field of [struct winsize], so nothing reaches the PTY (still 24x80), yet
    the session already reports 70000 rows and 100 columns. *)
Lemma failed_resize_keeps_new_size :
  let st := running_session in
  let st' := run (change_window_size 70000 100) st in
  fst (change_window_size 70000 100 st) = Raise StructError
  ∧ (rows (self st), cols (self st)) = (24, 80)
  ∧ winsize (world st') !! 3 = Some (24, 80)
  ∧ (rows (self st'), cols (self st')) = (70000, 100)
  ∧ ¬ (rows (self st') = rows (self st) ∧ cols (self st') = cols (self st)).
Proof.
  simpl. split_and!; try (vm_compute; reflexivity).
  intros [Hr _]. vm_compute in Hr. discriminate.
Qed.

(** The same with the [ioctl] itself failing: the descriptors were closed by
    [shutdown], the exit of the child is not recorded yet. *)
Lemma failed_ioctl_keeps_new_size :
  let st := run shutdown running_session in
  let st' := run (change_window_size 30 100) st in
  fst (change_window_size 30 100 st) = Raise OSError
  ∧ winsize (world st') !! 3 = Some (24, 80)
  ∧ (rows (self st'), cols (self st')) = (30, 100).
Proof. simpl. split_and!; vm_compute; reflexivity. Qed.

(** C4, as the code has it. [_change_pty_size] stores the requested size
    before it touches the device, so after [change_window_size r c] on a live
    process [rows] and [cols] are [r] and [c] whether or not the device took
    them, and on a process that is not alive they are unchanged; when
    [_change_pty_size] returns normally the PTY has exactly the stored size. *)
Theorem resize_stores_requested_size (r c : Z) (st : State) :
  let st' := run (change_window_size r c) st in
  let st1 := run (_change_pty_size r c) st in
  rows (self st') = (if _is_process_alive (self st) then r else rows (self st))
  ∧ cols (self st') = (if _is_process_alive (self st) then c else cols (self st))
  ∧ (rows (self st1), cols (self st1)) = (r, c)
  ∧ (fst (_change_pty_size r c st) = Ok tt →
     ∃ m, master_fd (self st1) = Some m
          ∧ winsize (world st1) !! m = Some (rows (self st1), cols (self st1))).
Proof.
  simpl. unfold run. rewrite change_window_size_spec.
  unfold _is_process_alive, _is_process_started.
  rewrite _change_pty_size_spec. simpl.
  destruct (master_fd (self st)) as [m|] eqn:Hm;
    [destruct (struct_pack_HHHH r c 0 0) as [arg|e]; [destruct (fd_open m st)|]|];
    (split_and!; [by destruct (process (self st)) as [[p [code|]]|]
                 |by destruct (process (self st)) as [[p [code|]]|]
                 |done|]); simpl; try done.
  intros _. exists m. split; [done|]. apply lookup_insert_eq.
Qed.

Lemma resize_stores_requested_size_witness :
  fst (_change_pty_size 30 100 running_session) = Ok tt
  ∧ ∃ m, master_fd (self (run (_change_pty_size 30 100) running_session)) = Some m
         ∧ winsize (world (run (_change_pty_size 30 100) running_session)) !! m
           = Some (rows (self (run (_change_pty_size 30 100) running_session)),
                   cols (self (run (_change_pty_size 30 100) running_session))).
Proof.
  assert (Hok : fst (_change_pty_size 30 100 running_session) = Ok tt)
    by (vm_compute; reflexivity).
  split; [exact Hok|].
  destruct (resize_stores_requested_size 30 100 running_session) as (_ & _ & _ & Hdev).
  exact (Hdev Hok).
Defined.

(** ** Output pump *)

Lemma _read_output_spec (st : State) :
  _read_output st
  = match master_fd (self st) with
    | None => (Raise AttributeError, st)
    | Some m =>
        if fd_open m st then
          let data := take READ_CHUNK (pty_out (world st)) in
          if decide (0 < length data)%nat then
            (Ok (Some data),
             run (broadcast_subscribers data) (on_self (_put_buffer data) (after_read m st)))
          else (Ok None, after_read m st)
        else (Raise OSError, st)
    end.
Proof.
  unfold _read_output, bind, get_master_fd.
  destruct (master_fd (self st)) as [m|]; [|done].
  unfold os_read. destruct (fd_open m st); [|done].
  fold (after_read m st). simpl.
  case_decide; [|done].
  unfold modify, run. rewrite broadcast_subscribers_spec. done.
Qed.

Section Pump.
Variable sched : State → State.

Lemma _read_output_loop_body_ok (st : State) :
  fst (_read_output_loop_body sched st) = Ok tt.
Proof.
  unfold _read_output_loop_body, bind, try_except, any_Exception.
  rewrite _read_output_spec.
  destruct (master_fd (self st)) as [m|]; [|done].
  destruct (fd_open m st); [|done].
  simpl. by case_decide.
Qed.

Lemma _read_output_loop_unroll (fuel : nat) (st : State) :
  _read_output_loop sched (S fuel) st
  = if _is_process_alive (self st)
    then _read_output_loop sched fuel (run (_read_output_loop_body sched) st)
    else (Ok Finished, st).
Proof.
  simpl. unfold bind at 1. unfold get.
  destruct (_is_process_alive (self st)); [|done].
  unfold bind, run. pose proof (_read_output_loop_body_ok st) as Hok.
  destruct (_read_output_loop_body sched st) as [[[]|e] st1]; simpl in *; [done|discriminate].
Qed.


End Pump.



(** ** Subscriber service *)

(** When the environment has a home directory and the stored size fits the
    PTY, [start] succeeds and leaves a live process. *)
Lemma start_succeeds (st : State) (home : string) :
  environ (world st) !! "HOME" = Some home →
  0 ≤ rows (self st) ≤ 65535 ∧ 0 ≤ cols (self st) ≤ 65535 →
  fst (start st) = Ok tt
  ∧ process (self (run start st)) = Some (mkProcess (next_pid (world st)) None)
  ∧ _is_process_alive (self (run start st)) = true
  ∧ buffer (self (run start st)) = buffer (self st)
  ∧ subscribers (self (run start st)) = subscribers (self st).
Proof.
  intros Hhome Hsize.
  assert (Hst : ∃ st1, start st = (Ok tt, st1)
            ∧ process (self st1) = Some (mkProcess (next_pid (world st)) None)
            ∧ buffer (self st1) = buffer (self st)
            ∧ subscribers (self st1) = subscribers (self st)).
  { unfold start, _start_process.
    unfold bind at 1. unfold pty_openpty.
    unfold bind at 1. unfold modify.
    unfold bind at 1. unfold get.
    unfold bind at 1. rewrite _change_pty_size_spec. simpl.
    pose proof (struct_pack_winsize (rows (self st)) (cols (self st))) as Hpack.
    rewrite decide_True in Hpack by done. destruct Hpack as (arg & -> & _).
    unfold fd_open. simpl. rewrite bool_decide_eq_true_2 by set_solver.
    unfold bind, get, get_terminal_env, bind, get, get_slave_fd, os_ttyname. simpl.
    rewrite lookup_insert_ne by discriminate. rewrite Hhome. simpl.
    rewrite lookup_insert_eq. simpl.
    unfold ensure_future, log, modify. simpl.
    eexists. split; [reflexivity|]. done. }
  destruct Hst as (st1 & Hst & Hp & Hb & Hs).
  unfold run. rewrite Hst. simpl. split_and!; try done.
  unfold _is_process_alive, _is_process_started. by rewrite Hp.
Qed.

(** A subscriber whose stream is already closed gets nothing, and the
    session is not started for it. *)
Lemma _process_subscriber_closed (sched : State → State) (fuel : nat)
    (ws : ws_ref) (st : State) :
  ws_closed ws st = true →
  _process_subscriber sched fuel ws st = (Raise ConnectionClosed, st).
Proof.
  intros Hc. unfold _process_subscriber, bind, get, ws_send. by rewrite Hc.
Qed.

(** The task on an open stream: the snapshot is sent, [start] runs when no
    process exists, and the input loop follows. *)
Lemma _process_subscriber_open (sched : State → State) (fuel : nat)
    (ws : ws_ref) (st : State) :
  ws_closed ws st = false →
  _process_subscriber sched fuel ws st
  = (if _is_process_started (self st)
     then subscriber_loop sched fuel ws (emit (EvSend ws (buffer (self st))) st)
     else (do_ start; subscriber_loop sched fuel ws)
            (emit (EvSend ws (buffer (self st))) st)).
Proof.
  intros Hopen. unfold _process_subscriber.
  unfold bind at 1. unfold get.
  unfold bind at 1. unfold ws_send. rewrite Hopen.
  unfold bind at 1. unfold get. simpl.
  destruct (_is_process_started (self st)); simpl; [|done].
  unfold bind at 1. unfold ret. done.
Qed.

Lemma sends_to_app (ws : ws_ref) (tr es : list event) :
  sends_to ws (tr ++ es) = sends_to ws tr ++ sends_to ws es.
Proof. unfold sends_to. apply omap_app. Qed.

Lemma sends_to_no_send (ws : ws_ref) (es : list event) :
  existsb is_send es = false → sends_to ws es = [].
Proof.
  induction es as [|e es IH]; [done|]. simpl.
  intros [He Hes]%orb_false_elim. unfold sends_to in *. simpl.
  destruct e; try discriminate; simpl; by apply IH.
Qed.

(** [start] opens the PTY first and sends nothing to anybody. *)
Lemma start_sends_nothing (st : State) :
  ∃ r st1 es,
    start st = (r, st1)
    ∧ trace (world st1)
      = trace (world st)
        ++ EvOpenPty (next_fd (world st)) (next_fd (world st) + 1) :: es
    ∧ existsb is_send es = false.
Proof.
  unfold start, _start_process.
  unfold bind at 1. unfold pty_openpty.
  unfold bind at 1. unfold modify.
  unfold bind at 1. unfold get.
  unfold bind at 1. rewrite _change_pty_size_spec. simpl.
  destruct (struct_pack_HHHH _ _ 0 0) as [arg|e]; simpl;
    [|eexists _, _, []; split; [reflexivity|]; by simpl].
  destruct (fd_open _ _); simpl;
    [|eexists _, _, []; split; [reflexivity|]; by simpl].
  unfold bind, get, get_terminal_env, bind, get, get_slave_fd, os_ttyname. simpl.
  destruct (_ !! "HOME"); simpl;
    [|eexists _, _, [_]; split; [reflexivity|]; simpl;
      split; [by rewrite <- ?app_assoc|done]].
  destruct (_ !! (_ + 1)); simpl.
  - eexists _, _, [_; _; _]. split; [reflexivity|]. simpl.
    split; [by rewrite <- ?app_assoc|done].
  - eexists _, _, [_]. split; [reflexivity|]. simpl.
    split; [by rewrite <- ?app_assoc|done].
Qed.

(** One turn of the input loop sends nothing to anybody. *)
Lemma input_turn_sends_nothing (ws : ws_ref) (st : State) :
  ∃ st1 es,
    try_except (do data <- ws_recv ws; _write_stdin (message_bytes data))
      any_Exception print st = (Ok tt, st1)
    ∧ trace (world st1) = trace (world st) ++ es
    ∧ existsb is_send es = false.
Proof.
  unfold try_except, bind, ws_recv, any_Exception, print, log, modify.
  destruct (streams (world st) !! ws) as [[[] inc]|]; simpl;
    try (eexists _, [_]; split; [reflexivity|]; by simpl).
  destruct inc as [|msg rest]; simpl;
    [eexists _, [_]; split; [reflexivity|]; by simpl|].
  unfold _write_stdin, bind, get_master_fd, os_write, os_fsync, fd_open, is_pty.
  simpl.
  destruct (master_fd (self st)) as [m|] eqn:Hm; simpl;
    [|eexists _, [_; _]; split; [reflexivity|]; simpl;
      split; [by rewrite <- ?app_assoc|done]].
  destruct (bool_decide (m ∈ open_fds (world st))) eqn:Ho; simpl;
    [|eexists _, [_; _]; split; [reflexivity|]; simpl;
      split; [by rewrite <- ?app_assoc|done]].
  rewrite ?Hm, ?Ho. simpl. rewrite ?Ho. simpl.
  destruct (winsize (world st) !! m), (ttys (world st) !! m); simpl;
    eexists _, [_; _; _]; (split; [reflexivity|]); simpl;
    (split; [by rewrite <- ?app_assoc|done]).
Qed.

(** The input loop running alone sends nothing to anybody. *)
Lemma subscriber_loop_sends_nothing (fuel : nat) (ws : ws_ref) (st : State) :
  ∃ es, trace (world (snd (subscriber_loop alone fuel ws st))) = trace (world st) ++ es
        ∧ existsb is_send es = false.
Proof.
  revert st. induction fuel as [|fuel IH]; intros st; simpl.
  - exists []. by rewrite app_nil_r.
  - unfold bind at 1. unfold get.
    destruct (negb (ws_closed ws st)); [|exists []; by rewrite app_nil_r].
    unfold bind at 1.
    destruct (input_turn_sends_nothing ws st) as (st1 & es1 & -> & Htr1 & Hes1).
    unfold bind, asyncio_sleep_0, modify. change (alone st1) with st1.
    destruct (IH st1) as (es2 & -> & Hes2).
    exists (es1 ++ es2). rewrite Htr1, <- app_assoc. split; [done|].
    rewrite existsb_app, Hes1, Hes2. done.
Qed.

(** A subscriber attached while output is pending: the pump takes a turn
    before the subscriber's task takes its first step, so subscriber 1 gets
    the new chunk first and the snapshot, which holds that chunk again,
    second.  A subscriber whose stream is closed when its task runs gets
    nothing, and the session is not started for it. *)
Lemma attach_race_and_closed_stream :
  let st1 := run (add_subscriber 1%nat) racing_session in
  let st2 := run (_read_output_loop_body alone) st1 in
  let st3 := snd (_process_subscriber alone 0 1%nat st2) in
  let c1 := run (add_subscriber 2%nat) (peer_closes 2%nat fresh_session) in
  (buffer (self racing_session) = ["o"; "l"; "d"]%byte
   ∧ sends_to 1%nat (trace (world racing_session)) = []
   ∧ sends_to 1%nat (trace (world st3))
     = [["h"; "i"]; ["o"; "l"; "d"; "h"; "i"]]%byte)
  ∧ (fst (_process_subscriber alone 3 2%nat c1) = Raise ConnectionClosed
     ∧ sends_to 2%nat (trace (world (snd (_process_subscriber alone 3 2%nat c1)))) = []
     ∧ _is_process_started (self (snd (_process_subscriber alone 3 2%nat c1))) = false).
Proof. simpl. split_and!; vm_compute; reflexivity. Qed.

(** C1, as the code has it.  [add_subscriber] of a subscriber that is not
    registered sends nothing: it registers the subscriber and schedules its
    task.  When that task runs next and the stream is open, the first thing
    that happens is one binary message to the subscriber with exactly the
    buffer contents (empty or not, process started or not); up to the input
    loop nothing else is sent, [start] runs right after the send exactly when
    no process was ever started, and over the whole task, running alone, the
    snapshot is the only message the subscriber is sent. *)
Theorem attach_first_message (sched : State → State) (fuel : nat) (ws : ws_ref)
    (st : State) :
  ws ∉ subscribers (self st) → ws_closed ws st = false →
  let st1 := run (add_subscriber ws) st in
  let snapshot := buffer (self st) in
  let entry := snd (_process_subscriber sched 0 ws st1) in
  let whole := snd (_process_subscriber alone fuel ws st1) in
  subscribers (self st1) = subscribers (self st) ++ [ws]
  ∧ trace (world st1) = trace (world st) ++ [EvEnsureFuture (ProcessSubscriber ws)]
  ∧ (∃ es, trace (world entry) = trace (world st1) ++ EvSend ws snapshot :: es
           ∧ existsb is_send es = false
           ∧ if _is_process_started (self st) then es = []
             else ∃ es', es = EvOpenPty (next_fd (world st)) (next_fd (world st) + 1) :: es')
  ∧ sends_to ws (trace (world whole)) = sends_to ws (trace (world st)) ++ [snapshot].
Proof.
  intros Hnew Hopen. cbv zeta.
  assert (Hst1 : run (add_subscriber ws) st
                 = emit (EvEnsureFuture (ProcessSubscriber ws))
                     (on_self (set_subscribers (subscribers (self st) ++ [ws])) st)).
  { unfold run. rewrite add_subscriber_spec. simpl. by rewrite bool_decide_eq_false_2. }
  rewrite Hst1.
  set (st1 := emit (EvEnsureFuture (ProcessSubscriber ws))
                (on_self (set_subscribers (subscribers (self st) ++ [ws])) st)).
  assert (Hopen1 : ws_closed ws st1 = false) by done.
  set (st0 := emit (EvSend ws (buffer (self st1))) st1).
  destruct (start_sends_nothing st0) as (r & s1 & es1 & Hstart & Htr1 & Hes1).
  split_and!.
  - done.
  - done.
  - rewrite (_process_subscriber_open sched 0 ws st1 Hopen1). fold st0.
    change (_is_process_started (self st1)) with (_is_process_started (self st)).
    destruct (_is_process_started (self st)).
    + exists []. simpl. done.
    + exists (EvOpenPty (next_fd (world st)) (next_fd (world st) + 1) :: es1).
      unfold bind. rewrite Hstart.
      assert (Htr : trace (world (snd (match r with
                                        | Ok _ => subscriber_loop sched 0 ws s1
                                        | Raise e => (Raise e, s1)
                                        end))) = trace (world s1)) by (by destruct r).
      rewrite Htr, Htr1. unfold st0. simpl. rewrite <- app_assoc.
      split_and!; [done|done|by eexists].
  - rewrite (_process_subscriber_open alone fuel ws st1 Hopen1). fold st0.
    change (_is_process_started (self st1)) with (_is_process_started (self st)).
    assert (Hst0 : trace (world st0)
                   = trace (world st) ++ [EvEnsureFuture (ProcessSubscriber ws);
                                          EvSend ws (buffer (self st))]).
    { unfold st0, st1. simpl. by rewrite <- app_assoc. }
    assert (Hsent : ∀ s es, trace (world s) = trace (world st0) ++ es →
                            existsb is_send es = false →
                            sends_to ws (trace (world s))
                            = sends_to ws (trace (world st)) ++ [buffer (self st)]).
    { intros s es Hs Hes. rewrite Hs, Hst0, !sends_to_app, (sends_to_no_send ws es Hes).
      rewrite app_nil_r. f_equal. unfold sends_to. simpl. by rewrite decide_True. }
    destruct (_is_process_started (self st)).
    + destruct (subscriber_loop_sends_nothing fuel ws st0) as (es & Hes & Hno).
      by apply (Hsent _ es).
    + unfold bind. rewrite Hstart. destruct r as [[]|e].
      * destruct (subscriber_loop_sends_nothing fuel ws s1) as (es & Hes & Hno).
        apply (Hsent _ ((EvOpenPty (next_fd (world st0)) (next_fd (world st0) + 1) :: es1) ++ es)).
        -- rewrite Hes, Htr1. by rewrite <- app_assoc.
        -- rewrite existsb_app. simpl. by rewrite Hes1, Hno.
      * apply (Hsent _ (EvOpenPty (next_fd (world st0)) (next_fd (world st0) + 1) :: es1)).
        -- done.
        -- done.
Qed.

(** A fresh session, never started, empty buffer: subscriber 1 is attached,
    its task sends the empty snapshot and nothing else to it. *)
Lemma attach_first_message_witness :
  (1%nat ∉ subscribers (self fresh_session))
  ∧ ws_closed 1%nat fresh_session = false
  ∧ sends_to 1%nat
      (trace (world (snd (_process_subscriber alone 3 1%nat
                            (run (add_subscriber 1%nat) fresh_session)))))
    = sends_to 1%nat (trace (world fresh_session)) ++ [buffer (self fresh_session)].
Proof.
  assert (Hnew : 1%nat ∉ subscribers (self fresh_session)).
  { intros Hin%list_elem_of_In. vm_compute in Hin. done. }
  assert (Hopen : ws_closed 1%nat fresh_session = false) by (vm_compute; reflexivity).
  destruct (attach_first_message alone 3 1%nat fresh_session Hnew Hopen)
    as (_ & _ & _ & Hsent).
  exact (conj Hnew (conj Hopen Hsent)).
Defined.

(** * Further properties *)

(** ** Scrollback *)

Lemma set_buffer_set_buffer (a b : bytes) (t : Terminal) :
  set_buffer b (set_buffer a t) = set_buffer b t.
Proof. by destruct t. Qed.

(** X1. Chunk boundaries leave no mark in the scrollback: putting [a] and
    then [b] is putting [a ++ b]. *)
Theorem _put_buffer_app (a b : bytes) (t : Terminal) :
  _put_buffer b (_put_buffer a t) = _put_buffer (a ++ b) t.
Proof.
  unfold _put_buffer. simpl. rewrite set_buffer_set_buffer.
  by rewrite fold_left_app.
Qed.

Lemma last_n_all {A} (n : nat) (l : list A) :
  (length l ≤ n)%nat → last_n n l = l.
Proof.
  intros Hl. unfold last_n. replace (length l - n)%nat with 0%nat by lia. done.
Qed.

(** X2. From any buffer within capacity, [_put_buffer] leaves the last 4096
    bytes of the old contents followed by the new bytes: the buffer stays
    within capacity, grows by the chunk until it is full, and a chunk of 4096
    bytes or more replaces everything older. *)
Theorem _put_buffer_bounded (chars : bytes) (t : Terminal) :
  (length (buffer t) ≤ 4096)%nat →
  let b' := buffer (_put_buffer chars t) in
  b' = last_n 4096 (buffer t ++ chars)
  ∧ length b' = Nat.min (length (buffer t) + length chars) 4096
  ∧ (length b' ≤ 4096)%nat
  ∧ ((4096 ≤ length chars)%nat → b' = last_n 4096 chars).
Proof.
  intros Hlen. cbv zeta.
  assert (Hb : buffer (_put_buffer chars t) = last_n 4096 (buffer t ++ chars)).
  { apply (_put_buffer_last_n chars (buffer t) t). symmetry. by apply last_n_all. }
  rewrite Hb. split_and!.
  - done.
  - rewrite length_last_n, length_app. done.
  - rewrite length_last_n. lia.
  - intros Hbig. unfold last_n. rewrite length_app.
    rewrite drop_app_ge by lia. f_equal. lia.
Qed.

Lemma _put_buffer_bounded_witness :
  let t := set_buffer ["a"%byte; "b"%byte] (__init__ None) in
  (length (buffer t) ≤ 4096)%nat
  ∧ buffer (_put_buffer ["c"%byte] t) = last_n 4096 (buffer t ++ ["c"%byte]).
Proof.
  assert (Hlen : (length (buffer (set_buffer ["a"%byte; "b"%byte] (__init__ None))) ≤ 4096)%nat).
  { simpl. lia. }
  split; [exact Hlen|].
  apply (_put_buffer_bounded ["c"%byte] _ Hlen).
Defined.

(** ** Liveness *)

(** X3. A session is in exactly one of three conditions: never started,
    alive, or completed; the event loop recording the exit turns alive into
    completed and changes nothing for a session never started. *)
Theorem liveness_partition (st : State) (code : Z) :
  let t := self st in
  _is_process_started t = _is_process_alive t || _is_process_completed t
  ∧ _is_process_alive t && _is_process_completed t = false
  ∧ _is_process_started (self (process_exited code st)) = _is_process_started t
  ∧ _is_process_completed (self (process_exited code st)) = _is_process_started t.
Proof.
  simpl. unfold process_exited, _is_process_completed, _is_process_alive,
    _is_process_started.
  destruct st as [[cmd [[p [c|]]|] m s subs buf co r] w]; simpl; done.
Qed.

(** ** Registry *)

Lemma remove_first_elem_ne (x y : ws_ref) (l : list ws_ref) :
  y ≠ x → (y ∈ remove_first x l ↔ y ∈ l).
Proof.
  intros Hne. induction l as [|z l IH].
  - done.
  - destruct (decide (z = x)) as [->|Hz].
    + rewrite remove_first_cons_eq. rewrite elem_of_cons. naive_solver.
    + rewrite remove_first_cons_ne by done. rewrite !elem_of_cons, IH. done.
Qed.

Lemma remove_first_notin (x : ws_ref) (l : list ws_ref) :
  x ∉ l → remove_first x l = l.
Proof.
  intros Hn. rewrite <- (app_nil_r l) at 1.
  rewrite remove_first_app_notin by done. by rewrite app_nil_r.
Qed.

Lemma remove_first_NoDup (x : ws_ref) (l : list ws_ref) :
  NoDup l → NoDup (remove_first x l) ∧ (x ∉ remove_first x l).
Proof.
  induction 1 as [|z l Hz Hl IH].
  - split; [apply NoDup_nil_2 | by intros ?%elem_of_nil].
  - destruct (decide (z = x)) as [->|Hne].
    + rewrite remove_first_cons_eq. done.
    + rewrite remove_first_cons_ne by done. destruct IH as [IH1 IH2]. split.
      * apply NoDup_cons. split; [|done].
        by rewrite remove_first_elem_ne.
      * intros [?|?]%elem_of_cons; [congruence | done].
Qed.

(** X4. [_remove_subscriber] never raises and touches the object's registry
    only.  For a subscriber that is not registered it changes nothing at all;
    in a registry without duplicates the subscriber is gone afterwards, every
    other one is kept, and removing it again changes nothing. *)
Theorem _remove_subscriber_prunes (ws : ws_ref) (st : State) :
  let st' := run (_remove_subscriber ws) st in
  fst (_remove_subscriber ws st) = Ok tt
  ∧ self st' = set_subscribers (remove_first ws (subscribers (self st))) (self st)
  ∧ (ws ∉ subscribers (self st) → st' = st)
  ∧ (∀ x, x ≠ ws → (x ∈ subscribers (self st') ↔ x ∈ subscribers (self st)))
  ∧ (NoDup (subscribers (self st)) →
     (ws ∉ subscribers (self st'))
     ∧ NoDup (subscribers (self st'))
     ∧ run (_remove_subscriber ws) st' = st').
Proof.
  cbv zeta. unfold run.
  assert (Hself : ∀ s, self (_remove_subscriber ws s).2
                       = set_subscribers (remove_first ws (subscribers (self s))) (self s)).
  { intros s. rewrite _remove_subscriber_spec. simpl.
    case_bool_decide as Hin.
    - by destruct (ws_closed ws s).
    - rewrite remove_first_notin by done. by destruct s as [[] ?]. }
  assert (Hout : ∀ s, ws ∉ subscribers (self s) → (_remove_subscriber ws s).2 = s).
  { intros s Hn. rewrite _remove_subscriber_spec. simpl.
    by rewrite bool_decide_eq_false_2. }
  split_and!.
  - by rewrite _remove_subscriber_spec.
  - apply Hself.
  - apply Hout.
  - intros x Hx. rewrite Hself. simpl. by apply remove_first_elem_ne.
  - intros Hnd. destruct (remove_first_NoDup ws _ Hnd) as [Hnd' Hgone].
    rewrite Hself. simpl. split_and!; [done|done|].
    apply Hout. by rewrite Hself.
Qed.

Lemma _remove_subscriber_prunes_witness :
  let st := run (add_subscriber 2%nat) attached_session in
  NoDup (subscribers (self st))
  ∧ (1%nat ∉ subscribers (self (run (_remove_subscriber 1%nat) st)))
  ∧ (3%nat ∉ subscribers (self st))
  ∧ run (_remove_subscriber 3%nat) st = st.
Proof.
  set (st := run (add_subscriber 2%nat) attached_session).
  assert (Hsubs : subscribers (self st) = [1%nat; 2%nat]) by (vm_compute; reflexivity).
  assert (Hnd : NoDup (subscribers (self st))).
  { rewrite Hsubs. apply NoDup_ListNoDup. repeat constructor; simpl; intuition lia. }
  assert (H3 : 3%nat ∉ subscribers (self st)).
  { rewrite Hsubs. intros Hin%list_elem_of_In. simpl in Hin. intuition lia. }
  destruct (_remove_subscriber_prunes 1%nat st) as (_ & _ & _ & _ & Hgone).
  destruct (_remove_subscriber_prunes 3%nat st) as (_ & _ & Hnoop & _).
  split_and!; [exact Hnd | exact (proj1 (Hgone Hnd)) | exact H3 | exact (Hnoop H3)].
Defined.

(** X5. Attaching a subscriber that is not registered and removing it again
    gives the registry back; in between [is_subscriber] answers [True], before
    and after it answers [False], and it never raises or changes anything. *)
Theorem add_then_remove_subscriber (ws : ws_ref) (st : State) :
  ws ∉ subscribers (self st) →
  let st1 := run (add_subscriber ws) st in
  let st2 := run (_remove_subscriber ws) st1 in
  is_subscriber ws st = (Ok false, st)
  ∧ is_subscriber ws st1 = (Ok true, st1)
  ∧ is_subscriber ws st2 = (Ok false, st2)
  ∧ subscribers (self st1) = subscribers (self st) ++ [ws]
  ∧ subscribers (self st2) = subscribers (self st).
Proof.
  intros Hn. cbv zeta.
  assert (H1 : subscribers (self (run (add_subscriber ws) st)) = subscribers (self st) ++ [ws]).
  { rewrite add_subscriber_registry. unfold attach. by rewrite bool_decide_eq_false_2. }
  assert (H2 : subscribers (self (run (_remove_subscriber ws) (run (add_subscriber ws) st)))
               = subscribers (self st)).
  { unfold run at 1. rewrite _remove_subscriber_spec. simpl. rewrite H1.
    rewrite bool_decide_eq_true_2 by (apply elem_of_app; right; apply list_elem_of_In; simpl; tauto).
    assert (Hrm : remove_first ws (subscribers (self st) ++ [ws]) = subscribers (self st)).
    { rewrite remove_first_app_notin by done. rewrite remove_first_cons_eq.
      by rewrite app_nil_r. }
    rewrite Hrm. by destruct (ws_closed ws _). }
  rewrite !is_subscriber_spec, H1, H2.
  rewrite (bool_decide_eq_false_2 _ Hn).
  rewrite bool_decide_eq_true_2 by (apply elem_of_app; right; apply list_elem_of_In; simpl; tauto).
  done.
Qed.

Lemma add_then_remove_subscriber_witness :
  (2%nat ∉ subscribers (self attached_session))
  ∧ subscribers (self (run (_remove_subscriber 2%nat)
                         (run (add_subscriber 2%nat) attached_session)))
    = subscribers (self attached_session).
Proof.
  assert (Hn : 2%nat ∉ subscribers (self attached_session)).
  { intros Hin%list_elem_of_In. vm_compute in Hin. intuition lia. }
  split; [exact Hn|].
  apply (add_then_remove_subscriber 2%nat attached_session Hn).
Defined.

(** X6. Any sequence of [add_subscriber] calls appends to the registry the
    subscribers that were not registered, each once, and schedules exactly one
    service task for each of them, in the same order; nothing else changes. *)
Theorem add_subscribers_one_task_each (wss : list ws_ref) (st : State) :
  ∃ news,
    foldl (λ st ws, run (add_subscriber ws) st) st wss
    = emits (service_tasks news)
        (on_self (set_subscribers (subscribers (self st) ++ news)) st)
    ∧ (∀ ws, ws ∈ news ↔ ws ∈ wss ∧ ws ∉ subscribers (self st))
    ∧ NoDup news.
Proof.
  revert st. induction wss as [|ws wss IH]; intros st; simpl.
  - exists []. split_and!.
    + rewrite app_nil_r, set_subscribers_same. by rewrite emits_nil.
    + intros ws. split; [by intros ?%elem_of_nil | by intros [?%elem_of_nil _]].
    + apply NoDup_nil_2.
  - destruct (IH (run (add_subscriber ws) st)) as (news & Heq & Hnews & Hnd).
    rewrite Heq. clear Heq IH.
    unfold run in *. rewrite add_subscriber_spec in *. simpl in *.
    case_bool_decide as Hin.
    + exists news. split_and!; [done| |done].
      intros x. rewrite Hnews, elem_of_cons. split; [naive_solver|].
      intros [[->|Hx] Hout]; done.
    + simpl in Hnews. exists (ws :: news). split_and!.
      * unfold emits, emit, on_world, on_self, set_trace, set_subscribers,
          service_tasks. simpl. rewrite <- !app_assoc. done.
      * intros x. rewrite !elem_of_cons, Hnews, elem_of_app.
        rewrite (list_elem_of_singleton x ws).
        destruct (decide (x = ws)) as [->|Hne]; [tauto|]. tauto.
      * apply NoDup_cons. split; [|done].
        intros [_ Hx]%Hnews. apply Hx.
        apply elem_of_app. right. by apply list_elem_of_singleton.
Qed.

Lemma filter_filter_same {A} (f : A → bool) (l : list A) :
  List.filter f (List.filter f l) = List.filter f l.
Proof.
  induction l as [|x l IH]; simpl; [done|].
  destruct (f x) eqn:Hx; simpl; [|done]. by rewrite Hx, IH.
Qed.

(** X7. Two broadcasts in a row: every subscriber with an open stream gets
    the first payload before the second, the second pass finds nothing left
    to prune, and the registry is the same after one pass as after two. *)
Theorem broadcast_twice_in_order (a b : bytes) (st : State) :
  let live := List.filter (λ ws, negb (ws_closed ws st)) (subscribers (self st)) in
  let st1 := run (broadcast_subscribers a) st in
  let st2 := run (broadcast_subscribers b) st1 in
  fst (broadcast_subscribers b st1) = Ok tt
  ∧ subscribers (self st2) = subscribers (self st1)
  ∧ subscribers (self st1) = live
  ∧ trace (world st2)
    = trace (world st) ++ map (λ ws, EvSend ws a) live ++ map (λ ws, EvSend ws b) live.
Proof.
  cbv zeta. unfold run.
  rewrite (broadcast_subscribers_spec a st). simpl.
  rewrite broadcast_subscribers_spec. simpl.
  change (λ ws, negb (ws_closed ws (on_self _ (emits _ st))))
    with (λ ws, negb (ws_closed ws st)).
  rewrite filter_filter_same. split_and!; try done.
  by rewrite <- app_assoc.
Qed.

(** ** Child environment *)

(** X8. With a home directory in the environment and a slave descriptor that
    names a terminal, [get_terminal_env] returns the parent environment with
    exactly five entries set: TERM, PWD (the home directory), SSH_TTY (the
    slave's tty name), LINES and COLUMNS (the stored size in decimal); every
    other variable is inherited, and neither the session nor the world
    changes. *)
Theorem get_terminal_env_overrides (st : State) (home tty : string) (s : Z) :
  environ (world st) !! "HOME" = Some home →
  slave_fd (self st) = Some s →
  ttys (world st) !! s = Some tty →
  ∃ env,
    get_terminal_env st = (Ok env, st)
    ∧ env !! "TERM" = Some "xterm-256color"
    ∧ env !! "PWD" = Some home
    ∧ env !! "SSH_TTY" = Some tty
    ∧ env !! "LINES" = Some (pretty (rows (self st)))
    ∧ env !! "COLUMNS" = Some (pretty (cols (self st)))
    ∧ ∀ k, k ∉ ["TERM"; "PWD"; "SSH_TTY"; "LINES"; "COLUMNS"] →
           env !! k = environ (world st) !! k.
Proof.
  intros Hhome Hs Htty.
  unfold get_terminal_env, bind, get, get_slave_fd, os_ttyname, ret. simpl.
  rewrite lookup_insert_ne by discriminate. rewrite Hhome, Hs, Htty.
  eexists. split; [reflexivity|].
  split_and!; try (by simplify_map_eq).
  intros k Hk.
  rewrite !lookup_insert_ne; [done|..]; intros <-; apply Hk;
    apply list_elem_of_In; simpl; tauto.
Qed.

Lemma get_terminal_env_overrides_witness :
  ∃ env, get_terminal_env running_session = (Ok env, running_session)
         ∧ env !! "PWD" = Some "/home/deck"
         ∧ env !! "LINES" = Some "24"
         ∧ env !! "COLUMNS" = Some "80".
Proof.
  assert (Hhome : environ (world running_session) !! "HOME" = Some "/home/deck")
    by (vm_compute; reflexivity).
  assert (Hs : slave_fd (self running_session) = Some 4) by (vm_compute; reflexivity).
  assert (Htty : ttys (world running_session) !! 4 = Some "/dev/pts/0")
    by (vm_compute; reflexivity).
  destruct (get_terminal_env_overrides running_session _ _ _ Hhome Hs Htty)
    as (env & Henv & _ & Hpwd & _ & Hlines & Hcols & _).
  exists env. split_and!; [exact Henv | exact Hpwd | exact Hlines | exact Hcols].
Defined.

(** X9. [get_terminal_env] never changes anything, and it fails in a fixed
    order: [KeyError] when the environment has no HOME, whatever the state of
    the PTY; otherwise [AttributeError] before the first start (no slave
    descriptor yet); otherwise [OSError] when the slave is not a terminal. *)
Theorem get_terminal_env_failures (st : State) :
  snd (get_terminal_env st) = st
  ∧ (environ (world st) !! "HOME" = None → fst (get_terminal_env st) = Raise KeyError)
  ∧ (is_Some (environ (world st) !! "HOME") → slave_fd (self st) = None →
     fst (get_terminal_env st) = Raise AttributeError)
  ∧ (is_Some (environ (world st) !! "HOME") →
     ∀ s, slave_fd (self st) = Some s → ttys (world st) !! s = None →
          fst (get_terminal_env st) = Raise OSError).
Proof.
  unfold get_terminal_env, bind, get, get_slave_fd, os_ttyname, ret. simpl.
  rewrite lookup_insert_ne by discriminate.
  split_and!.
  - destruct (environ (world st) !! "HOME"); [|done].
    destruct (slave_fd (self st)) as [fd|]; [|done]. simpl.
    by destruct (ttys (world st) !! fd).
  - by intros ->.
  - intros [h ->] ->. done.
  - intros [h ->] fd -> ->. done.
Qed.

Lemma get_terminal_env_failures_witness :
  is_Some (environ (world fresh_session) !! "HOME")
  ∧ slave_fd (self fresh_session) = None
  ∧ fst (get_terminal_env fresh_session) = Raise AttributeError.
Proof.
  assert (Hhome : is_Some (environ (world fresh_session) !! "HOME")).
  { exists "/home/deck". vm_compute. reflexivity. }
  assert (Hs : slave_fd (self fresh_session) = None) by reflexivity.
  destruct (get_terminal_env_failures fresh_session) as (_ & _ & Hattr & _).
  split_and!; [exact Hhome | exact Hs | exact (Hattr Hhome Hs)].
Defined.

(** ** Start *)

(** What a successful [start] leaves behind. *)
Lemma start_effect (st : State) (home : string) :
  environ (world st) !! "HOME" = Some home →
  0 ≤ rows (self st) ≤ 65535 ∧ 0 ≤ cols (self st) ≤ 65535 →
  ∃ arg env st1, start st = (Ok tt, st1)
     ∧ trace (world st1)
       = trace (world st)
         ++ [EvOpenPty (next_fd (world st)) (next_fd (world st) + 1);
             EvIoctlWinsz (next_fd (world st)) arg;
             EvSpawn (cmdline (self st)) env (next_pid (world st));
             EvEnsureFuture ReadOutputLoop]
     ∧ unpack_winsize arg = Some (rows (self st), cols (self st))
     ∧ env !! "LINES" = Some (pretty (rows (self st)))
     ∧ env !! "COLUMNS" = Some (pretty (cols (self st)))
     ∧ env !! "SSH_TTY" = ttys (world st1) !! (next_fd (world st) + 1)
     ∧ is_Some (env !! "SSH_TTY")
     ∧ open_fds (world st1)
       = open_fds (world st) ∪ {[next_fd (world st); next_fd (world st) + 1]}
     ∧ winsize (world st1) !! next_fd (world st) = Some (rows (self st), cols (self st))
     ∧ streams (world st1) = streams (world st)
     ∧ self st1 = set_process (Some (mkProcess (next_pid (world st)) None))
                    (set_fds (next_fd (world st)) (next_fd (world st) + 1) (self st)).
Proof.
  intros Hhome Hsize.
  unfold start, _start_process.
  unfold bind at 1. unfold pty_openpty.
  unfold bind at 1. unfold modify.
  unfold bind at 1. unfold get.
  unfold bind at 1. rewrite _change_pty_size_spec. simpl.
  pose proof (struct_pack_winsize (rows (self st)) (cols (self st))) as Hpack.
  rewrite decide_True in Hpack by done. destruct Hpack as (arg & -> & Harg).
  unfold fd_open. simpl. rewrite bool_decide_eq_true_2 by set_solver.
  unfold bind, get, get_terminal_env, bind, get, get_slave_fd, os_ttyname. simpl.
  rewrite lookup_insert_ne by discriminate. rewrite Hhome. simpl.
  rewrite lookup_insert_eq. simpl.
  unfold ensure_future, log, modify. simpl.
  eexists arg, _, _. split; [reflexivity|]. simpl.
  split; [by rewrite <- !app_assoc|].
  split_and!; try done; try (by simplify_map_eq);
    try (simplify_map_eq; by eauto); try (by destruct (self st)).
Qed.

(** X10. With a home directory in the environment and a stored size that
    fits the PTY, [start] does four things in this order: opens a PTY pair,
    sets the stored size on it, spawns the command line with the terminal
    environment, schedules the output pump.  Afterwards both descriptors are
    open and recorded, the PTY has the stored size, the child's LINES and
    COLUMNS are that size and its SSH_TTY is the slave's name, and the
    scrollback, the registry and the size are untouched. *)
Theorem start_launches_in_order (st : State) (home : string) :
  environ (world st) !! "HOME" = Some home →
  0 ≤ rows (self st) ≤ 65535 ∧ 0 ≤ cols (self st) ≤ 65535 →
  let m := next_fd (world st) in
  let s := next_fd (world st) + 1 in
  let st' := run start st in
  ∃ arg env,
    trace (world st')
    = trace (world st)
      ++ [EvOpenPty m s; EvIoctlWinsz m arg;
          EvSpawn (cmdline (self st)) env (next_pid (world st));
          EvEnsureFuture ReadOutputLoop]
    ∧ unpack_winsize arg = Some (rows (self st), cols (self st))
    ∧ env !! "LINES" = Some (pretty (rows (self st)))
    ∧ env !! "COLUMNS" = Some (pretty (cols (self st)))
    ∧ env !! "SSH_TTY" = ttys (world st') !! s
    ∧ is_Some (env !! "SSH_TTY")
    ∧ master_fd (self st') = Some m ∧ slave_fd (self st') = Some s
    ∧ m ∈ open_fds (world st') ∧ s ∈ open_fds (world st')
    ∧ winsize (world st') !! m = Some (rows (self st), cols (self st))
    ∧ self st' = set_process (Some (mkProcess (next_pid (world st)) None))
                   (set_fds m s (self st)).
Proof.
  intros Hhome Hsize. cbv zeta.
  destruct (start_effect st home Hhome Hsize)
    as (arg & env & st1 & Hst & Htr & Harg & Hl & Hc & Htty & Hsome
        & Hfds & Hwz & Hstr & Hself).
  unfold run. rewrite Hst. simpl. exists arg, env.
  split_and!; try done.
  - by rewrite Hself.
  - by rewrite Hself.
  - rewrite Hfds. set_solver.
  - rewrite Hfds. set_solver.
Qed.

Lemma start_launches_in_order_witness :
  environ (world fresh_session) !! "HOME" = Some "/home/deck"
  ∧ (0 ≤ rows (self fresh_session) ≤ 65535 ∧ 0 ≤ cols (self fresh_session) ≤ 65535)
  ∧ master_fd (self (run start fresh_session)) = Some 3
  ∧ winsize (world (run start fresh_session)) !! 3 = Some (24, 80).
Proof.
  assert (Hhome : environ (world fresh_session) !! "HOME" = Some "/home/deck")
    by (vm_compute; reflexivity).
  assert (Hsize : 0 ≤ rows (self fresh_session) ≤ 65535
                  ∧ 0 ≤ cols (self fresh_session) ≤ 65535) by (simpl; lia).
  destruct (start_launches_in_order fresh_session _ Hhome Hsize)
    as (arg & env & _ & _ & _ & _ & _ & _ & Hm & _ & _ & _ & Hwz & _).
  exact (conj Hhome (conj Hsize (conj Hm Hwz))).
Defined.

(** X11. Without HOME in the environment [start] raises [KeyError] after the
    PTY pair has been opened and sized: no child is spawned, no pump is
    scheduled and the session stays unstarted, but the two new descriptors
    are recorded and stay open. *)
Theorem start_without_home_leaks_pty (st : State) :
  environ (world st) !! "HOME" = None →
  0 ≤ rows (self st) ≤ 65535 ∧ 0 ≤ cols (self st) ≤ 65535 →
  let m := next_fd (world st) in
  let s := next_fd (world st) + 1 in
  let st' := run start st in
  fst (start st) = Raise KeyError
  ∧ process (self st') = process (self st)
  ∧ master_fd (self st') = Some m ∧ slave_fd (self st') = Some s
  ∧ m ∈ open_fds (world st') ∧ s ∈ open_fds (world st')
  ∧ ∃ arg, trace (world st') = trace (world st) ++ [EvOpenPty m s; EvIoctlWinsz m arg].
Proof.
  intros Hhome Hsize. cbv zeta.
  assert (Hst : ∃ arg st1, start st = (Raise KeyError, st1)
     ∧ process (self st1) = process (self st)
     ∧ master_fd (self st1) = Some (next_fd (world st))
     ∧ slave_fd (self st1) = Some (next_fd (world st) + 1)
     ∧ open_fds (world st1)
       = open_fds (world st) ∪ {[next_fd (world st); next_fd (world st) + 1]}
     ∧ trace (world st1)
       = trace (world st)
         ++ [EvOpenPty (next_fd (world st)) (next_fd (world st) + 1);
             EvIoctlWinsz (next_fd (world st)) arg]).
  { unfold start, _start_process.
    unfold bind at 1. unfold pty_openpty.
    unfold bind at 1. unfold modify.
    unfold bind at 1. unfold get.
    unfold bind at 1. rewrite _change_pty_size_spec. simpl.
    pose proof (struct_pack_winsize (rows (self st)) (cols (self st))) as Hpack.
    rewrite decide_True in Hpack by done. destruct Hpack as (arg & -> & Harg).
    unfold fd_open. simpl. rewrite bool_decide_eq_true_2 by set_solver.
    unfold bind, get, get_terminal_env, bind, get. simpl.
    rewrite lookup_insert_ne by discriminate. rewrite Hhome. simpl.
    eexists arg, _. split; [reflexivity|]. simpl.
    split_and!; try done. by rewrite <- !app_assoc. }
  destruct Hst as (arg & st1 & Hst & Hp & Hm & Hs & Hfds & Htr).
  unfold run. rewrite Hst. simpl.
  split_and!; try done; try (rewrite Hfds; set_solver).
  by exists arg.
Qed.

Lemma start_without_home_leaks_pty_witness :
  let st := on_world (λ w, mkWorld (open_fds w) (winsize w) (ttys w) (pty_out w)
                             (streams w) ∅ (next_fd w) (next_pid w) (trace w))
              fresh_session in
  environ (world st) !! "HOME" = None
  ∧ fst (start st) = Raise KeyError
  ∧ 3 ∈ open_fds (world (run start st)).
Proof.
  set (st := on_world _ fresh_session).
  assert (Hhome : environ (world st) !! "HOME" = None) by (vm_compute; reflexivity).
  assert (Hsize : 0 ≤ rows (self st) ≤ 65535 ∧ 0 ≤ cols (self st) ≤ 65535)
    by (simpl; lia).
  destruct (start_without_home_leaks_pty st Hhome Hsize) as (Hr & _ & _ & _ & Hopen & _).
  split_and!; [exact Hhome | exact Hr | exact Hopen].
Defined.

(** X12. Whatever the state and whether it succeeds or not, [start] closes
    no descriptor, signals no process and sends nothing to a subscriber, and
    it leaves the scrollback and the registry alone.  So a second [start] on
    a session that already has a process leaves the first process unsignalled
    and its PTY descriptors open. *)
Theorem start_never_tears_down (st : State) :
  let st' := run start st in
  open_fds (world st) ⊆ open_fds (world st')
  ∧ buffer (self st') = buffer (self st)
  ∧ subscribers (self st') = subscribers (self st)
  ∧ streams (world st') = streams (world st)
  ∧ ∃ es, trace (world st') = trace (world st) ++ es
          ∧ existsb is_teardown_event es = false.
Proof.
  cbv zeta.
  assert (Hst : ∃ r st1 es, start st = (r, st1)
            ∧ open_fds (world st) ⊆ open_fds (world st1)
            ∧ buffer (self st1) = buffer (self st)
            ∧ subscribers (self st1) = subscribers (self st)
            ∧ streams (world st1) = streams (world st)
            ∧ trace (world st1) = trace (world st) ++ es
            ∧ existsb is_teardown_event es = false).
  { unfold start, _start_process.
    unfold bind at 1. unfold pty_openpty.
    unfold bind at 1. unfold modify.
    unfold bind at 1. unfold get.
    unfold bind at 1. rewrite _change_pty_size_spec. simpl.
    destruct (struct_pack_HHHH _ _ 0 0) as [arg|e]; simpl;
      [|eexists _, _, [_]; split; [reflexivity|]; simpl;
        split_and!; [set_solver|done|done|done|done|done]].
    destruct (fd_open _ _); simpl;
      [|eexists _, _, [_]; split; [reflexivity|]; simpl;
        split_and!; [set_solver|done|done|done|done|done]].
    unfold bind, get, get_terminal_env, bind, get, get_slave_fd, os_ttyname. simpl.
    destruct (_ !! "HOME"); simpl;
      [|eexists _, _, [_; _]; split; [reflexivity|]; simpl;
        split_and!; [set_solver|done|done|done|by rewrite <- ?app_assoc|done]].
    destruct (_ !! (_ + 1)); simpl.
    - eexists _, _, [_; _; _; _]. split; [reflexivity|]. simpl.
      split_and!; [set_solver|done|done|done|by rewrite <- ?app_assoc|done].
    - eexists _, _, [_; _]. split; [reflexivity|]. simpl.
      split_and!; [set_solver|done|done|done|by rewrite <- ?app_assoc|done]. }
  destruct Hst as (r & st1 & es & Hst & Hfds & Hb & Hs & Hstr & Htr & Hes).
  unfold run. rewrite Hst. simpl. split_and!; try done.
  by exists es.
Qed.

(** ** Releasing the PTY *)

(** The closed form of [_kill_process] in its two main cases. *)
Lemma _kill_process_cases (st : State) :
  match master_fd (self st) with
  | None =>
      _kill_process st
      = (Ok tt, emits (kill_signal (self st) ++ [EvPrint AttributeError]) st)
  | Some m =>
      if fd_open m st then
        ∀ s, slave_fd (self st) = Some s → m ≠ s → fd_open s st = true →
             _kill_process st
             = (Ok tt, emits (kill_signal (self st) ++ [EvClose m; EvClose s])
                         (on_world (λ w, set_open_fds (open_fds w ∖ {[m; s]}) w) st))
      else
        _kill_process st
        = (Ok tt, emits (kill_signal (self st) ++ [EvPrint OSError]) st)
  end.
Proof.
  destruct st as [[cmd proc m s subs buf c r] [fds wz tt po str env nf np tr]].
  unfold _kill_process, bind, get, try_except, get_process, Process_kill,
    Process_send_signal, log, modify, get_master_fd, get_slave_fd, os_close,
    fd_open, print, log, modify, ret, kill_signal, _is_process_alive,
    _is_process_started, any_Exception, emits, emit, on_world, set_trace, set_open_fds.
  simpl.
  destruct m as [m|]; simpl.
  - case_bool_decide as Hm; simpl.
    + intros s' -> Hne Hs. apply bool_decide_eq_true_1 in Hs.
      destruct proc as [[p [code|]]|]; simpl.
      all: repeat (case_bool_decide; simpl); try (exfalso; set_solver).
      all: rewrite <- ?app_assoc; simpl.
      all: replace (fds ∖ {[m]} ∖ {[s']}) with (fds ∖ {[m; s']}) by set_solver.
      all: done.
    + destruct proc as [[p [code|]]|]; simpl.
      all: repeat (case_bool_decide; simpl); try done.
      all: by rewrite <- ?app_assoc.
  - destruct proc as [[p [code|]]|]; simpl.
    all: by rewrite <- ?app_assoc.
Qed.

(** X13. When both PTY descriptors are open, [_kill_process] signals a
    process that has no exit status, then closes the master and then the
    slave, prints nothing and leaves every other descriptor open; [shutdown]
    leaves the same descriptors open. *)
Theorem _kill_process_releases_pty (st : State) (m s : Z) :
  master_fd (self st) = Some m → slave_fd (self st) = Some s → m ≠ s →
  fd_open m st = true → fd_open s st = true →
  _kill_process st
  = (Ok tt, emits (kill_signal (self st) ++ [EvClose m; EvClose s])
              (on_world (λ w, set_open_fds (open_fds w ∖ {[m; s]}) w) st))
  ∧ open_fds (world (run shutdown st)) = open_fds (world st) ∖ {[m; s]}.
Proof.
  intros Hm Hs Hne Hom Hos.
  pose proof (_kill_process_cases st) as Hk. rewrite Hm, Hom in Hk.
  specialize (Hk s Hs Hne Hos). split; [done|].
  unfold run, shutdown, bind. rewrite Hk, close_subscribers_spec. reflexivity.
Qed.

Lemma _kill_process_releases_pty_witness :
  master_fd (self running_session) = Some 3
  ∧ slave_fd (self running_session) = Some 4
  ∧ fd_open 3 running_session = true ∧ fd_open 4 running_session = true
  ∧ open_fds (world (run shutdown running_session))
    = open_fds (world running_session) ∖ {[3; 4]}.
Proof.
  assert (Hm : master_fd (self running_session) = Some 3) by (vm_compute; reflexivity).
  assert (Hs : slave_fd (self running_session) = Some 4) by (vm_compute; reflexivity).
  assert (Hom : fd_open 3 running_session = true) by (vm_compute; reflexivity).
  assert (Hos : fd_open 4 running_session = true) by (vm_compute; reflexivity).
  assert (Hne : 3 ≠ 4) by lia.
  destruct (_kill_process_releases_pty running_session 3 4 Hm Hs Hne Hom Hos) as [_ Hfds].
  exact (conj Hm (conj Hs (conj Hom (conj Hos Hfds)))).
Defined.

(** X14. When the master descriptor is unset or not open, the first
    [os.close] raises and the second is skipped: [_kill_process] prints the
    error and closes nothing, so a slave descriptor that is still open stays
    open. *)
Theorem _kill_process_skips_slave (st : State) :
  (∀ m, master_fd (self st) = Some m → fd_open m st = false) →
  let e := match master_fd (self st) with Some _ => OSError | None => AttributeError end in
  _kill_process st = (Ok tt, emits (kill_signal (self st) ++ [EvPrint e]) st)
  ∧ open_fds (world (run _kill_process st)) = open_fds (world st)
  ∧ ∀ s, slave_fd (self st) = Some s →
         fd_open s (run _kill_process st) = fd_open s st.
Proof.
  intros Hclosed. cbv zeta.
  pose proof (_kill_process_cases st) as Hk.
  assert (Heq : _kill_process st
                = (Ok tt, emits (kill_signal (self st)
                                 ++ [EvPrint match master_fd (self st) with
                                             | Some _ => OSError
                                             | None => AttributeError
                                             end]) st)).
  { destruct (master_fd (self st)) as [m|]; [|done].
    by rewrite (Hclosed m eq_refl) in Hk. }
  unfold run. rewrite Heq. done.
Qed.

Lemma _kill_process_skips_slave_witness :
  let st := on_world (λ w, set_open_fds (open_fds w ∖ {[3]}) w) running_session in
  (∀ m, master_fd (self st) = Some m → fd_open m st = false)
  ∧ fd_open 4 st = true
  ∧ fd_open 4 (run _kill_process st) = fd_open 4 st.
Proof.
  set (st := on_world _ running_session).
  assert (Hclosed : ∀ m, master_fd (self st) = Some m → fd_open m st = false).
  { intros m Hm. vm_compute in Hm. injection Hm as <-. vm_compute. reflexivity. }
  assert (Hopen : fd_open 4 st = true) by (vm_compute; reflexivity).
  destruct (_kill_process_skips_slave st Hclosed) as (_ & _ & Hslave).
  exact (conj Hclosed (conj Hopen (Hslave 4 eq_refl))).
Defined.

(** X15. After [shutdown] the PTY can be neither written nor read through
    the session: [_write_stdin] and [_read_output] raise ([OSError] on the
    closed master, [AttributeError] if there never was one) and change
    nothing, whatever the state [shutdown] was called in. *)
Theorem io_after_shutdown_fails (st : State) (input : bytes) :
  let st' := run shutdown st in
  let e := match master_fd (self st) with Some _ => OSError | None => AttributeError end in
  _write_stdin input st' = (Raise e, st')
  ∧ _read_output st' = (Raise e, st').
Proof.
  cbv zeta. unfold run.
  destruct (shutdown_effect st) as (fds & es & -> & _ & Hm). simpl.
  rewrite _read_output_spec.
  unfold _write_stdin, bind, get_master_fd, os_write, fd_open. simpl.
  destruct (master_fd (self st)) as [m|]; [|done].
  rewrite !bool_decide_eq_false_2 by (by apply Hm). done.
Qed.

(** X16. A second [shutdown] right after the first closes no descriptor and
    leaves the object as the first one left it. *)
Theorem shutdown_twice_same (st : State) :
  let st1 := run shutdown st in
  let st2 := run shutdown st1 in
  self st2 = self st1
  ∧ open_fds (world st2) = open_fds (world st1)
  ∧ streams (world st2) = streams (world st1).
Proof.
  cbv zeta.
  assert (H1 : ∃ fds es,
            run shutdown st
            = mkState (set_subscribers [] (self st))
                (set_open_fds fds
                   (set_trace (trace (world st) ++ kill_signal (self st) ++ es) (world st)))
            ∧ ∀ m, master_fd (self st) = Some m → m ∉ fds).
  { unfold run. destruct (shutdown_effect st) as (fds & es & -> & _ & Hm). eauto. }
  destruct H1 as (fds & es & H1 & Hm).
  remember (run shutdown st) as st1 eqn:Hst1. clear Hst1.
  assert (Hclosed : ∀ m, master_fd (self st1) = Some m → fd_open m st1 = false).
  { intros m Hm1. rewrite H1 in *. unfold fd_open. apply bool_decide_eq_false_2.
    by apply Hm. }
  pose proof (_kill_process_cases st1) as Hk.
  assert (Heq : ∃ es1, _kill_process st1 = (Ok tt, emits es1 st1)).
  { destruct (master_fd (self st1)) as [m|] eqn:Hm1; [|by eexists].
    rewrite (Hclosed m eq_refl) in Hk. by eexists. }
  destruct Heq as [es1 Heq].
  unfold run, shutdown, bind. rewrite Heq, close_subscribers_spec. simpl.
  rewrite H1. done.
Qed.

(** ** The loops *)



Lemma subscriber_loop_step (fuel : nat) (ws : ws_ref) (st : State) (m : Z)
    (msg : message) (rest : list message) :
  streams (world st) !! ws = Some (mkStream false (msg :: rest)) →
  master_fd (self st) = Some m → fd_open m st = true → is_pty m st = true →
  subscriber_loop alone (S fuel) ws st
  = subscriber_loop alone fuel ws
      (emits (forwarded m ws msg)
         (on_world (λ w, set_streams (<[ws := mkStream false rest]> (streams w)) w) st)).
Proof.
  intros Hws Hm Hopen Hpty. simpl.
  unfold bind at 1. unfold get. unfold ws_closed. rewrite Hws. simpl.
  unfold bind at 1.
  unfold try_except, bind, ws_recv. rewrite Hws. simpl.
  unfold _write_stdin, bind, get_master_fd. simpl.
  unfold os_write, os_fsync, fd_open, is_pty in *. simpl in *.
  repeat (first [rewrite Hm | rewrite Hopen | rewrite Hpty]; simpl).
  unfold asyncio_sleep_0, modify, alone, print, log, modify. simpl.
  f_equal. unfold emits, emit, forwarded, on_world, set_trace. simpl.
  by rewrite <- !app_assoc.
Qed.

Lemma subscriber_loop_hangup (fuel : nat) (ws : ws_ref) (st : State) :
  streams (world st) !! ws = Some (mkStream false []) →
  subscriber_loop alone (S (S fuel)) ws st
  = (Ok Finished,
     emit (EvPrint ConnectionClosed)
       (on_world (λ w, set_streams (<[ws := mkStream true []]> (streams w)) w) st)).
Proof.
  intros Hws. simpl.
  unfold bind at 1. unfold get. unfold ws_closed. rewrite Hws. simpl.
  unfold bind at 1.
  unfold try_except, bind, ws_recv. rewrite Hws. simpl.
  unfold asyncio_sleep_0, modify, alone, get, print, log, modify. simpl.
  unfold ws_closed. simpl. by rewrite lookup_insert_eq.
Qed.

(** The run of the input loop on the frames the peer sends. *)
Lemma subscriber_loop_run (msgs : list message) (fuel : nat) (ws : ws_ref)
    (st : State) (m : Z) :
  streams (world st) !! ws = Some (mkStream false msgs) →
  master_fd (self st) = Some m → fd_open m st = true → is_pty m st = true →
  (length msgs + 2 ≤ fuel)%nat →
  let r := subscriber_loop alone fuel ws st in
  fst r = Ok Finished
  ∧ trace (world (snd r))
    = trace (world st) ++ concat (map (forwarded m ws) msgs) ++ [EvPrint ConnectionClosed]
  ∧ ws_closed ws (snd r) = true
  ∧ self (snd r) = self st
  ∧ open_fds (world (snd r)) = open_fds (world st).
Proof.
  cbv zeta. revert fuel st.
  induction msgs as [|msg rest IH]; intros fuel st Hws Hm Hopen Hpty Hfuel.
  - destruct fuel as [|[|fuel]]; [simpl in Hfuel; lia..|].
    rewrite (subscriber_loop_hangup fuel ws st Hws). simpl.
    unfold ws_closed. simpl. rewrite lookup_insert_eq. done.
  - destruct fuel as [|fuel]; [simpl in Hfuel; lia|].
    rewrite (subscriber_loop_step fuel ws st m msg rest Hws Hm Hopen Hpty).
    match goal with |- context [subscriber_loop alone fuel ws ?s] => set (st1 := s) end.
    destruct (IH fuel st1) as (Hr & Htr & Hc & Hself & Hfds).
    + unfold st1. simpl. apply lookup_insert_eq.
    + done.
    + done.
    + done.
    + simpl in Hfuel. lia.
    + rewrite Hr, Htr, Hc, Hself, Hfds. unfold st1. simpl.
      split_and!; try done. by rewrite <- !app_assoc.
Qed.

(** X18. A subscriber's input loop, running alone with the PTY master open:
    every frame the peer sends is written to the master, in the order
    received, text frames as the bytes of their text; the sync that follows
    each write is refused by the PTY, the error is printed and the loop goes
    on.  When the peer disconnects the failed receive is printed and the loop
    finishes, having changed nothing in the session object and closed no
    descriptor. *)
Theorem subscriber_loop_forwards (msgs : list message) (fuel : nat) (ws : ws_ref)
    (st : State) (m : Z) :
  streams (world st) !! ws = Some (mkStream false msgs) →
  master_fd (self st) = Some m → fd_open m st = true → is_pty m st = true →
  (length msgs + 2 ≤ fuel)%nat →
  let r := subscriber_loop alone fuel ws st in
  fst r = Ok Finished
  ∧ trace (world (snd r))
    = trace (world st)
      ++ concat (map (λ msg, [EvRecv ws msg; EvWrite m (message_bytes msg);
                              EvPrint OSError]) msgs)
      ++ [EvPrint ConnectionClosed]
  ∧ ws_closed ws (snd r) = true
  ∧ self (snd r) = self st
  ∧ open_fds (world (snd r)) = open_fds (world st).
Proof. apply subscriber_loop_run. Qed.

Lemma subscriber_loop_forwards_witness :
  let st := running_session in
  streams (world st) !! 1%nat = Some (mkStream false [Text "ls"])
  ∧ master_fd (self st) = Some 3 ∧ fd_open 3 st = true ∧ is_pty 3 st = true
  ∧ fst (subscriber_loop alone 3 1%nat st) = Ok Finished
  ∧ trace (world (snd (subscriber_loop alone 3 1%nat st)))
    = trace (world st)
      ++ concat (map (λ msg, [EvRecv 1%nat msg; EvWrite 3 (message_bytes msg);
                              EvPrint OSError]) [Text "ls"])
      ++ [EvPrint ConnectionClosed].
Proof.
  assert (Hws : streams (world running_session) !! 1%nat
                = Some (mkStream false [Text "ls"])) by (vm_compute; reflexivity).
  assert (Hm : master_fd (self running_session) = Some 3) by (vm_compute; reflexivity).
  assert (Hopen : fd_open 3 running_session = true) by (vm_compute; reflexivity).
  assert (Hpty : is_pty 3 running_session = true) by (vm_compute; reflexivity).
  assert (Hfuel : (length [Text "ls"] + 2 ≤ 3)%nat) by (simpl; lia).
  destruct (subscriber_loop_forwards [Text "ls"] 3 1%nat running_session 3
              Hws Hm Hopen Hpty Hfuel) as (Hr & Htr & _).
  exact (conj Hws (conj Hm (conj Hopen (conj Hpty (conj Hr Htr))))).
Defined.

Lemma take_plus {A} (a b : nat) (l : list A) :
  take (a + b) l = take a l ++ take b (drop a l).
Proof.
  revert l. induction a as [|a IH]; intros l; simpl; [done|].
  destruct l as [|x l]; simpl; [by rewrite take_nil|]. by rewrite IH.
Qed.

(** One turn of the pump running alone with the master open. *)
Lemma pump_turn_alone (st : State) (m : Z) (hist : bytes) :
  master_fd (self st) = Some m → fd_open m st = true →
  buffer (self st) = last_n BUFFER_MAXLEN hist →
  let st' := run (_read_output_loop_body alone) st in
  master_fd (self st') = Some m ∧ fd_open m st' = true
  ∧ process (self st') = process (self st)
  ∧ pty_out (world st') = drop READ_CHUNK (pty_out (world st))
  ∧ buffer (self st')
    = last_n BUFFER_MAXLEN (hist ++ take READ_CHUNK (pty_out (world st))).
Proof.
  intros Hm Hopen Hbuf. cbv zeta.
  unfold run, _read_output_loop_body, bind, try_except, any_Exception.
  rewrite _read_output_spec, Hm, Hopen. simpl.
  case_decide as Hlen; simpl.
  - unfold run. rewrite broadcast_subscribers_spec. simpl.
    split_and!; try done.
    rewrite Hbuf. apply fold_deque_append_last_n.
  - split_and!; try done.
    assert (Hnil : take READ_CHUNK (pty_out (world st)) = []).
    { destruct (take READ_CHUNK (pty_out (world st))); [done|simpl in Hlen; lia]. }
    by rewrite Hnil, app_nil_r.
Qed.

(** X19. The pump running alone with the master open: after [n] turns the
    first [50 * n] pending bytes have left the PTY and are the newest part
    of the scrollback, in order; no byte is lost, repeated or reordered by
    the cutting into reads of 50.  While the process is alive the loop does
    not end: with fuel [n] it has taken exactly those [n] turns. *)
Theorem pump_drains_in_order (n : nat) (st : State) (m : Z) (hist : bytes) :
  master_fd (self st) = Some m → fd_open m st = true →
  buffer (self st) = last_n 4096 hist →
  let st' := pump_turns alone n st in
  let out := pty_out (world st) in
  pty_out (world st') = drop (50 * n) out
  ∧ buffer (self st') = last_n 4096 (hist ++ take (50 * n) out)
  ∧ (_is_process_alive (self st) = true →
     _read_output_loop alone n st = (Ok OutOfFuel, st')).
Proof.
  cbv zeta. revert st hist. induction n as [|n IH]; intros st hist Hm Hopen Hbuf.
  - simpl. rewrite drop_0, app_nil_r. done.
  - destruct (pump_turn_alone st m hist Hm Hopen Hbuf) as (Hm1 & Ho1 & Hp1 & Hout1 & Hb1).
    destruct (IH _ _ Hm1 Ho1 Hb1) as (Hout & Hb & Hloop).
    replace (50 * S n)%nat with (50 + 50 * n)%nat by lia.
    split_and!.
    + simpl pump_turns. rewrite Hout, Hout1. by rewrite drop_drop.
    + simpl pump_turns. rewrite Hb, Hout1, take_plus. by rewrite <- app_assoc.
    + intros Halive. rewrite _read_output_loop_unroll, Halive.
      apply Hloop. unfold _is_process_alive, _is_process_started in *.
      by rewrite Hp1.
Qed.

Lemma pump_drains_in_order_witness :
  let st := child_writes ["h"%byte; "i"%byte] running_session in
  master_fd (self st) = Some 3 ∧ fd_open 3 st = true
  ∧ buffer (self st) = last_n 4096 []
  ∧ buffer (self (pump_turns alone 2 st)) = last_n 4096 ([] ++ take (50 * 2) (pty_out (world st))).
Proof.
  set (st := child_writes ["h"%byte; "i"%byte] running_session).
  assert (Hm : master_fd (self st) = Some 3) by (vm_compute; reflexivity).
  assert (Hopen : fd_open 3 st = true) by (vm_compute; reflexivity).
  assert (Hbuf : buffer (self st) = last_n 4096 []) by (vm_compute; reflexivity).
  destruct (pump_drains_in_order 2 st 3 [] Hm Hopen Hbuf) as (_ & Hb & _).
  exact (conj Hm (conj Hopen (conj Hbuf Hb))).
Defined.

(** ** Resize, continued *)

(** X20. Whatever it is given and however it ends, [change_window_size]
    leaves the scrollback, the registry, the process, the command line and
    both descriptors of the object as they were, opens and closes nothing,
    touches no stream and no pending output, and changes the window size of
    no PTY other than the session's master. *)
Theorem change_window_size_frame (r c : Z) (st : State) :
  let st' := run (change_window_size r c) st in
  buffer (self st') = buffer (self st)
  ∧ subscribers (self st') = subscribers (self st)
  ∧ process (self st') = process (self st)
  ∧ cmdline (self st') = cmdline (self st)
  ∧ master_fd (self st') = master_fd (self st)
  ∧ slave_fd (self st') = slave_fd (self st)
  ∧ open_fds (world st') = open_fds (world st)
  ∧ streams (world st') = streams (world st)
  ∧ pty_out (world st') = pty_out (world st)
  ∧ ∀ fd, master_fd (self st) ≠ Some fd →
          winsize (world st') !! fd = winsize (world st) !! fd.
Proof.
  cbv zeta. unfold run. rewrite change_window_size_spec, _change_pty_size_spec.
  destruct (process (self st)) as [[p [code|]]|] eqn:Hp; [by simpl| |by simpl].
  cbv zeta.
  destruct (master_fd (self st)) as [m|] eqn:Hm; [|by simpl].
  destruct (struct_pack_HHHH r c 0 0) as [arg|e]; [|by simpl].
  destruct (fd_open m st); [|by simpl]. simpl.
  split_and!; try done.
  intros fd Hfd. apply lookup_insert_ne. congruence.
Qed.

(** ** Input without a PTY, attach from scratch, size bounds *)

Lemma subscriber_loop_step_no_pty (fuel : nat) (ws : ws_ref) (st : State)
    (msg : message) (rest : list message) :
  streams (world st) !! ws = Some (mkStream false (msg :: rest)) →
  (∀ m, master_fd (self st) = Some m → fd_open m st = false) →
  let e := match master_fd (self st) with Some _ => OSError | None => AttributeError end in
  subscriber_loop alone (S fuel) ws st
  = subscriber_loop alone fuel ws
      (emits [EvRecv ws msg; EvPrint e]
         (on_world (λ w, set_streams (<[ws := mkStream false rest]> (streams w)) w) st)).
Proof.
  intros Hws Hclosed. simpl.
  unfold bind at 1. unfold get. unfold ws_closed. rewrite Hws. simpl.
  unfold bind at 1.
  unfold try_except, bind, ws_recv. rewrite Hws. simpl.
  unfold _write_stdin, bind, get_master_fd. simpl.
  unfold os_write, fd_open in *. simpl in *.
  destruct (master_fd (self st)) as [m|]; simpl.
  - rewrite (Hclosed m eq_refl). simpl.
    unfold asyncio_sleep_0, modify, alone, print, log, modify. simpl.
    f_equal. unfold emits, emit, on_world, set_trace. simpl.
    by rewrite <- !app_assoc.
  - unfold asyncio_sleep_0, modify, alone, print, log, modify. simpl.
    f_equal. unfold emits, emit, on_world, set_trace. simpl.
    by rewrite <- !app_assoc.
Qed.

(** X21. A subscriber's input loop, running alone while the PTY master is
    unset or not open (before any start, after [shutdown]): every frame is
    received and dropped with a printed error, nothing is written, and the
    loop still finishes normally when the peer disconnects. *)
Theorem subscriber_loop_drops_without_pty (msgs : list message) (fuel : nat)
    (ws : ws_ref) (st : State) :
  streams (world st) !! ws = Some (mkStream false msgs) →
  (∀ m, master_fd (self st) = Some m → fd_open m st = false) →
  (length msgs + 2 ≤ fuel)%nat →
  let e := match master_fd (self st) with Some _ => OSError | None => AttributeError end in
  let r := subscriber_loop alone fuel ws st in
  fst r = Ok Finished
  ∧ trace (world (snd r))
    = trace (world st) ++ concat (map (λ msg, [EvRecv ws msg; EvPrint e]) msgs)
      ++ [EvPrint ConnectionClosed]
  ∧ self (snd r) = self st
  ∧ open_fds (world (snd r)) = open_fds (world st).
Proof.
  cbv zeta. revert fuel st.
  induction msgs as [|msg rest IH]; intros fuel st Hws Hclosed Hfuel.
  - destruct fuel as [|[|fuel]]; [simpl in Hfuel; lia..|].
    rewrite (subscriber_loop_hangup fuel ws st Hws). simpl. done.
  - destruct fuel as [|fuel]; [simpl in Hfuel; lia|].
    rewrite (subscriber_loop_step_no_pty fuel ws st msg rest Hws Hclosed).
    match goal with |- context [subscriber_loop alone fuel ws ?s] => set (st1 := s) end.
    destruct (IH fuel st1) as (Hr & Htr & Hself & Hfds).
    + unfold st1. simpl. apply lookup_insert_eq.
    + done.
    + simpl in Hfuel. lia.
    + rewrite Hr, Htr, Hself, Hfds. unfold st1. simpl.
      split_and!; try done. by rewrite <- !app_assoc.
Qed.

Lemma subscriber_loop_drops_without_pty_witness :
  let st := run shutdown running_session in
  streams (world st) !! 1%nat = Some (mkStream false [Text "ls"])
  ∧ (∀ m, master_fd (self st) = Some m → fd_open m st = false)
  ∧ fst (subscriber_loop alone 3 1%nat st) = Ok Finished
  ∧ trace (world (snd (subscriber_loop alone 3 1%nat st)))
    = trace (world st)
      ++ concat (map (λ msg, [EvRecv 1%nat msg; EvPrint OSError]) [Text "ls"])
      ++ [EvPrint ConnectionClosed].
Proof.
  set (st := run shutdown running_session).
  assert (Hws : streams (world st) !! 1%nat = Some (mkStream false [Text "ls"]))
    by (vm_compute; reflexivity).
  assert (Hclosed : ∀ m, master_fd (self st) = Some m → fd_open m st = false).
  { intros m Hm. vm_compute in Hm. injection Hm as <-. vm_compute. reflexivity. }
  assert (Hfuel : (length [Text "ls"] + 2 ≤ 3)%nat) by (simpl; lia).
  destruct (subscriber_loop_drops_without_pty [Text "ls"] 3 1%nat st Hws Hclosed Hfuel)
    as (Hr & Htr & _).
  exact (conj Hws (conj Hclosed (conj Hr Htr))).
Defined.

(** X22. Attaching to a session that was never started, the task running
    alone: the subscriber is sent the scrollback, the session starts (PTY
    opened and sized, child spawned, pump scheduled), and then every frame
    of the subscriber is written to the new PTY master in order, each write
    followed by the printed refusal of the sync, until the peer disconnects;
    the process is alive at the end. *)
Theorem attach_starts_and_forwards (msgs : list message) (fuel : nat) (ws : ws_ref)
    (st : State) (home : string) :
  process (self st) = None →
  streams (world st) !! ws = Some (mkStream false msgs) →
  environ (world st) !! "HOME" = Some home →
  0 ≤ rows (self st) ≤ 65535 ∧ 0 ≤ cols (self st) ≤ 65535 →
  (length msgs + 2 ≤ fuel)%nat →
  let r := _process_subscriber alone fuel ws st in
  let m := next_fd (world st) in
  fst r = Ok Finished
  ∧ _is_process_alive (self (snd r)) = true
  ∧ ∃ arg env,
      trace (world (snd r))
      = trace (world st)
        ++ [EvSend ws (buffer (self st)); EvOpenPty m (m + 1); EvIoctlWinsz m arg;
            EvSpawn (cmdline (self st)) env (next_pid (world st));
            EvEnsureFuture ReadOutputLoop]
        ++ concat (map (λ msg, [EvRecv ws msg; EvWrite m (message_bytes msg);
                                EvPrint OSError]) msgs)
        ++ [EvPrint ConnectionClosed].
Proof.
  intros Hproc Hws Hhome Hsize Hfuel. cbv zeta.
  set (st0 := emit (EvSend ws (buffer (self st))) st).
  destruct (start_effect st0 home Hhome Hsize)
    as (arg & env & st1 & Hst & Htr & _ & _ & _ & _ & _ & Hfds & Hwz & Hstr & Hself).
  assert (Hrun : _process_subscriber alone fuel ws st = subscriber_loop alone fuel ws st1).
  { unfold _process_subscriber.
    unfold bind at 1. unfold get.
    unfold bind at 1. unfold ws_send, ws_closed. rewrite Hws. simpl.
    unfold bind at 1. unfold get. fold st0.
    unfold _is_process_started. simpl. rewrite Hproc. simpl.
    unfold bind at 1. by rewrite Hst. }
  rewrite Hrun.
  destruct (subscriber_loop_run msgs fuel ws st1 (next_fd (world st)))
    as (Hr & Htr1 & _ & Hself1 & _).
  - by rewrite Hstr.
  - by rewrite Hself.
  - unfold fd_open. apply bool_decide_eq_true_2. rewrite Hfds. set_solver.
  - unfold is_pty. simpl in Hwz. by rewrite Hwz.
  - done.
  - split_and!.
    + done.
    + rewrite Hself1, Hself. reflexivity.
    + exists arg, env. rewrite Htr1, Htr. unfold st0. simpl.
      by rewrite <- !app_assoc.
Qed.

Lemma attach_starts_and_forwards_witness :
  process (self fresh_session) = None
  ∧ streams (world fresh_session) !! 1%nat = Some (mkStream false [Text "ls"])
  ∧ fst (_process_subscriber alone 3 1%nat fresh_session) = Ok Finished
  ∧ _is_process_alive (self (snd (_process_subscriber alone 3 1%nat fresh_session))) = true.
Proof.
  assert (Hproc : process (self fresh_session) = None) by reflexivity.
  assert (Hws : streams (world fresh_session) !! 1%nat
                = Some (mkStream false [Text "ls"])) by (vm_compute; reflexivity).
  assert (Hhome : environ (world fresh_session) !! "HOME" = Some "/home/deck")
    by (vm_compute; reflexivity).
  assert (Hsize : 0 ≤ rows (self fresh_session) ≤ 65535
                  ∧ 0 ≤ cols (self fresh_session) ≤ 65535) by (simpl; lia).
  assert (Hfuel : (length [Text "ls"] + 2 ≤ 3)%nat) by (simpl; lia).
  destruct (attach_starts_and_forwards [Text "ls"] 3 1%nat fresh_session _
              Hproc Hws Hhome Hsize Hfuel) as (Hr & Halive & _).
  exact (conj Hproc (conj Hws (conj Hr Halive))).
Defined.

(** X23. The outcomes of [_change_pty_size], in the order the code meets
    them: [AttributeError] when there is no master descriptor;
    [struct.error] when rows or cols is outside 0..65535, before the device
    is touched; [OSError] when the master is not open; otherwise it returns
    normally and the PTY has the new size.  In the three failures the world
    is unchanged. *)
Theorem _change_pty_size_outcomes (r c : Z) (st : State) :
  let res := fst (_change_pty_size r c st) in
  let st' := run (_change_pty_size r c) st in
  let fits := 0 ≤ r ≤ 65535 ∧ 0 ≤ c ≤ 65535 in
  (master_fd (self st) = None → res = Raise AttributeError ∧ world st' = world st)
  ∧ ∀ m, master_fd (self st) = Some m →
      (¬ fits → res = Raise StructError ∧ world st' = world st)
      ∧ (fits → fd_open m st = false → res = Raise OSError ∧ world st' = world st)
      ∧ (fits → fd_open m st = true →
         res = Ok tt ∧ winsize (world st') !! m = Some (r, c)
         ∧ open_fds (world st') = open_fds (world st)).
Proof.
  cbv zeta. unfold run. rewrite _change_pty_size_spec. cbv zeta.
  pose proof (struct_pack_winsize r c) as Hpack.
  split.
  - by intros ->.
  - intros m ->. split_and!.
    + intros Hfits. rewrite decide_False in Hpack by done. by rewrite Hpack.
    + intros Hfits Hopen. rewrite decide_True in Hpack by done.
      destruct Hpack as (arg & -> & _). by rewrite Hopen.
    + intros Hfits Hopen. rewrite decide_True in Hpack by done.
      destruct Hpack as (arg & -> & _). rewrite Hopen. simpl.
      split_and!; try done. apply lookup_insert_eq.
Qed.

Lemma _change_pty_size_outcomes_witness :
  master_fd (self running_session) = Some 3
  ∧ ¬ (0 ≤ 70000 ≤ 65535 ∧ 0 ≤ 80 ≤ 65535)
  ∧ fst (_change_pty_size 70000 80 running_session) = Raise StructError
  ∧ world (run (_change_pty_size 70000 80) running_session) = world running_session.
Proof.
  assert (Hm : master_fd (self running_session) = Some 3) by (vm_compute; reflexivity).
  assert (Hbad : ¬ (0 ≤ 70000 ≤ 65535 ∧ 0 ≤ 80 ≤ 65535)) by lia.
  destruct (_change_pty_size_outcomes 70000 80 running_session) as [_ Hsome].
  destruct (Hsome 3 Hm) as (Hstruct & _ & _).
  destruct (Hstruct Hbad) as [Hres Hworld].
  exact (conj Hm (conj Hbad (conj Hres Hworld))).
Defined.
